(** * JWT MySQL Backend (src/lib/service/main.py): model and properties

    A shallow embedding of the FastAPI service: the two tables, the password
    and token helpers, the identity resolver and the six route handlers.

    Conventions.
    - A handler that touches the database is a function from the session
      state to a result and the next state. A raised exception leaves the
      state as it was (nothing was committed).
    - [datetime.utcnow()] is an explicit argument [now], in whole seconds
      since the epoch (the unit of the [exp] claim).
    - The salt drawn by passlib is an explicit argument of [hash_password]. *)

From stdpp Require Import base tactics option list sorting countable strings.
From Stdlib Require Import ZArith Ascii.

Local Open Scope Z_scope.

(** ** Exceptions and results *)

Inductive exn : Type :=
  | HTTPException (status_code : Z) (detail : string)
  | RequestValidationError
  | JWTError (msg : string)
  | UnknownHashError
  | DataError.

Inductive result (A : Type) : Type :=
  | Return (a : A)
  | Raise (e : exn).
Arguments Return {A} a.
Arguments Raise {A} e.

(** [x ← r; k] runs [k] on a returned value and lets an exception pass. *)
#[global] Instance result_bind : MBind result := λ A B k r,
  match r with
  | Return a => k a
  | Raise e => Raise e
  end.

(** The status line FastAPI answers with: the decorator's [status_code] on a
    normal return, the exception's own code for an [HTTPException], 422 for
    a body that fails its schema, 500 for anything else that escapes. *)
Definition status_of {A} (success : Z) (r : result A) : Z :=
  match r with
  | Return _ => success
  | Raise (HTTPException c _) => c
  | Raise RequestValidationError => 422
  | Raise _ => 500
  end.

Definition HTTP_401_UNAUTHORIZED : Z := 401.
Definition HTTP_404_NOT_FOUND : Z := 404.
Definition HTTP_409_CONFLICT : Z := 409.

(** ** APP CONFIG *)

Definition ALGORITHM : string := "HS256".
Definition ACCESS_TOKEN_EXPIRE_MINUTES : Z := 60.

(** ** MODELS *)

Module User.
Record t : Type := mk {
  id : Z;
  email : string;
  password_hash : string;
  created_at : Z
}.
End User.

Module Note.
Record t : Type := mk {
  id : Z;
  owner_email : string;
  title : string;
  content : string;
  created_at : Z
}.

(** Column widths: [String(255)] and [String(2000)]. *)
Definition title_width : nat := 255.
Definition content_width : nat := 2000.
End Note.

#[global] Instance User_eq_dec : EqDecision User.t.
Proof. solve_decision. Defined.
#[global] Instance Note_eq_dec : EqDecision Note.t.
Proof. solve_decision. Defined.

(** The session: both tables in insertion order and the two AUTO_INCREMENT
    counters. *)
Record Session : Type := mkSession {
  users : list User.t;
  notes : list Note.t;
  users_seq : Z;
  notes_seq : Z
}.

Definition empty_db : Session :=
  {| users := []; notes := []; users_seq := 1; notes_seq := 1 |}.

(** What becomes of a string wider than its column is for the MySQL server
    to decide, by its SQL mode: the statement is refused (error 1406, which
    SQLAlchemy raises as [DataError]) or a cut value is stored instead. An
    [overflow] policy gives, for a column width and a string that exceeds
    it, [None] for a refusal and [Some s'] for the value stored. *)
Definition overflow : Type := nat → string → option string.

Definition truncate (width : nat) (s : string) : string :=
  String.substring 0 width s.

Definition store_string (on_overflow : overflow) (width : nat) (s : string)
  : result string :=
  if bool_decide (String.length s ≤ width)%nat then Return s
  else match on_overflow width s with
       | None => Raise DataError
       | Some s' => Return s'
       end.

(** ** SCHEMAS *)

Module RegisterRequest.
Record t : Type := mk {
  email : string;
  password : string
}.
End RegisterRequest.

Module LoginRequest.
Record t : Type := mk {
  email : string;
  password : string
}.
End LoginRequest.

Module TokenResponse.
Record t : Type := mk {
  access_token : string;
  token_type : string
}.
End TokenResponse.

(** The body of [POST /notes] and [PUT /notes/{note_id}]: a title and a
    content, nothing else. *)
Module NoteCreate.
Record t : Type := mk {
  title : string;
  content : string
}.
End NoteCreate.

Module NoteOut.
Record t : Type := mk {
  id : Z;
  title : string;
  content : string;
  created_at : Z
}.
End NoteOut.

Definition note_out (n : Note.t) : NoteOut.t :=
  NoteOut.mk (Note.id n) (Note.title n) (Note.content n) (Note.created_at n).

(** ** Compact tokens: the three dot-separated segments

    python-jose takes a token apart with [rsplit(".", 1)] (the signature is
    what follows the last dot) and then [split(".", 1)] (the header is what
    precedes the first dot). *)

Definition is_dot (c : ascii) : bool := Ascii.eqb c "."%char.

Fixpoint dotfree (s : string) : bool :=
  match s with
  | EmptyString => true
  | String c s' => negb (is_dot c) && dotfree s'
  end.

Fixpoint split_first (s : string) : option (string * string) :=
  match s with
  | EmptyString => None
  | String c s' =>
      if is_dot c then Some (EmptyString, s')
      else match split_first s' with
           | Some (a, b) => Some (String c a, b)
           | None => None
           end
  end.

Fixpoint rsplit_last (s : string) : option (string * string) :=
  match s with
  | EmptyString => None
  | String c s' =>
      match rsplit_last s' with
      | Some (a, b) => Some (String c a, b)
      | None => if is_dot c then Some (EmptyString, s') else None
      end
  end.

(** ** JSON objects of scalars: the header and the claims of a token *)

Inductive jvalue : Type :=
  | JNull
  | JBool (b : bool)
  | JNum (z : Z)
  | JStr (s : string).

#[global] Instance jvalue_eq_dec : EqDecision jvalue.
Proof. solve_decision. Defined.

Definition jobject : Type := list (string * jvalue).

(** [d.get(key)] *)
Fixpoint get (key : string) (d : jobject) : option jvalue :=
  match d with
  | [] => None
  | (k, v) :: d' => if bool_decide (k = key) then Some v else get key d'
  end.

(** [not v]: Python's truth value of a decoded JSON scalar. *)
Definition truthy (v : jvalue) : bool :=
  match v with
  | JNull => false
  | JBool b => b
  | JNum z => negb (bool_decide (z = 0))
  | JStr s => negb (bool_decide (s = EmptyString))
  end.

(** ** Session operations: what [db.add], attribute assignment and
    [db.delete] followed by [db.commit()] do to the tables *)

Definition set_notes (ns : list Note.t) (db : Session) : Session :=
  {| users := users db; notes := ns;
     users_seq := users_seq db; notes_seq := notes_seq db |}.

(** INSERT INTO users: the id comes from the counter, [created_at] from its
    column default. The two strings always fit their columns: an [EmailStr]
    has at most 254 characters and an argon2 hash has a fixed size. *)
Definition insert_user (email password_hash : string) (now : Z)
    (db : Session) : Session :=
  {| users := users db ++ [User.mk (users_seq db) email password_hash now];
     notes := notes db;
     users_seq := users_seq db + 1;
     notes_seq := notes_seq db |}.

(** INSERT INTO notes, followed by [db.refresh(note)]. [owner_email] is a
    copy of a [users.email] value, a column of the same width. *)
Definition insert_note (on_overflow : overflow)
    (owner_email title content : string)
    (now : Z) (db : Session) : result Note.t * Session :=
  match store_string on_overflow Note.title_width title,
        store_string on_overflow Note.content_width content with
  | Return t, Return c =>
      let note := Note.mk (notes_seq db) owner_email t c now in
      (Return note,
       {| users := users db; notes := notes db ++ [note];
          users_seq := users_seq db; notes_seq := notes_seq db + 1 |})
  | Raise e, _ => (Raise e, db)
  | _, Raise e => (Raise e, db)
  end.

Definition with_text (t c : string) (n : Note.t) : Note.t :=
  Note.mk (Note.id n) (Note.owner_email n) t c (Note.created_at n).

(** UPDATE notes SET title = t, content = c WHERE id = note.id, followed by
    [db.refresh(note)]. *)
Definition update_row (on_overflow : overflow) (note : Note.t)
    (title content : string) (db : Session) : result Note.t * Session :=
  match store_string on_overflow Note.title_width title,
        store_string on_overflow Note.content_width content with
  | Return t, Return c =>
      (Return (with_text t c note),
       set_notes
         ((λ n, if bool_decide (Note.id n = Note.id note)
                then with_text t c n else n) <$> notes db) db)
  | Raise e, _ => (Raise e, db)
  | _, Raise e => (Raise e, db)
  end.

(** DELETE FROM notes WHERE id = note.id *)
Definition delete_row (note : Note.t) (db : Session) : Session :=
  set_notes (filter (λ n, Note.id n ≠ Note.id note) (notes db)) db.

(** [.order_by(Note.id.desc())] *)
Definition id_desc (a b : Note.t) : Prop := Note.id b ≤ Note.id a.

#[global] Instance id_desc_dec a b : Decision (id_desc a b).
Proof. unfold id_desc. apply _. Defined.

Definition id_desc_strict (a b : Note.t) : Prop := Note.id b < Note.id a.

(** [id] is the primary key of [notes] and is drawn from the counter: no two
    rows share an id, and every id in use lies below the counter. *)
Definition primary_key (db : Session) : Prop :=
  NoDup (Note.id <$> notes db)
  ∧ Forall (λ n, Note.id n < notes_seq db) (notes db).

(** ** LOAD ENV *)

(** The process environment: [os.getenv(key)] is [env key]. *)
Definition environ : Type := string → option string.

(** What loading the module comes to: the value, or the [RuntimeError] that
    stops the process. *)
Inductive loaded (A : Type) : Type :=
  | Loaded (a : A)
  | RuntimeError (msg : string).
Arguments Loaded {A} a.
Arguments RuntimeError {A} msg.

Definition must_env (env : environ) (key : string) : loaded string :=
  match env key with
  | Some val =>
      if bool_decide (val = EmptyString) then
        RuntimeError
          ("ENV '" +:+ key +:+ "' tidak ditemukan / kosong. Cek file .env")
      else Loaded val
  | None =>
      RuntimeError
        ("ENV '" +:+ key +:+ "' tidak ditemukan / kosong. Cek file .env")
  end.

(** [os.getenv(key, fallback)] *)
Definition getenv_or (env : environ) (key fallback : string) : string :=
  match env key with
  | Some val => val
  | None => fallback
  end.

Module Settings.
Record t : Type := mk {
  SECRET_KEY : string;
  DB_USER : string;
  DB_PASSWORD : string;
  DB_HOST : string;
  DB_PORT : string;
  DB_NAME : string
}.
End Settings.

(** The assignments at the top of the module, in their order. *)
Definition load_settings (env : environ) : loaded Settings.t :=
  match must_env env "JWT_SECRET" with
  | RuntimeError msg => RuntimeError msg
  | Loaded secret_key =>
      match must_env env "DB_USER" with
      | RuntimeError msg => RuntimeError msg
      | Loaded db_user =>
          match must_env env "DB_PASSWORD" with
          | RuntimeError msg => RuntimeError msg
          | Loaded db_password =>
              let db_host := getenv_or env "DB_HOST" "localhost" in
              let db_port := getenv_or env "DB_PORT" "3306" in
              match must_env env "DB_NAME" with
              | RuntimeError msg => RuntimeError msg
              | Loaded db_name =>
                  Loaded (Settings.mk secret_key db_user db_password
                            db_host db_port db_name)
              end
          end
      end
  end.

(** ** An executable instance of the library interfaces

    The service is modelled over any collation, hash and token codec (the
    variables of the section below). This module gives one instance that
    computes: a string is coded as the binary digits of its [Countable]
    code, which contain no dot. It shows that what the section assumes of
    the libraries can be met, and it runs the examples. *)
Module Concrete.

Fixpoint digits (p : positive) : string :=
  match p with
  | xH => EmptyString
  | xO p' => String "0"%char (digits p')
  | xI p' => String "1"%char (digits p')
  end.

Fixpoint undigits (s : string) : option positive :=
  match s with
  | EmptyString => Some xH
  | String c s' =>
      if Ascii.eqb c "0"%char then xO <$> undigits s'
      else if Ascii.eqb c "1"%char then xI <$> undigits s'
      else None
  end.

Definition pickle {A} `{Countable A} (a : A) : string := digits (encode a).

Definition unpickle {A} `{Countable A} (s : string) : option A :=
  undigits s ≫= decode.

Definition jvalue_to_sum (v : jvalue) : unit + bool + Z + string :=
  match v with
  | JNull => inl (inl (inl ()))
  | JBool b => inl (inl (inr b))
  | JNum z => inl (inr z)
  | JStr s => inr s
  end.

Definition jvalue_of_sum (x : unit + bool + Z + string) : jvalue :=
  match x with
  | inl (inl (inl _)) => JNull
  | inl (inl (inr b)) => JBool b
  | inl (inr z) => JNum z
  | inr s => JStr s
  end.

#[global] Instance jvalue_countable : Countable jvalue.
Proof.
  apply (inj_countable' jvalue_to_sum jvalue_of_sum). by intros [].
Defined.

Definition collate_eq (a b : string) : bool := bool_decide (a = b).
Definition argon2 (salt password : string) : string := pickle (salt, password).
Definition phc_encode (salt digest : string) : string := pickle (salt, digest).
Definition phc_decode (hash : string) : option (string * string) :=
  unpickle hash.
Definition json_dumps (o : jobject) : string := pickle o.
Definition json_loads (s : string) : option jobject := unpickle s.
Definition base64url_encode (s : string) : string := pickle s.
Definition base64url_decode (s : string) : option string := unpickle s.
Definition sign (alg key m : string) : string :=
  alg +:+ ":" +:+ key +:+ ":" +:+ m.

Definition SECRET_KEY : string := "s3cret".

Fixpoint spaces (s : string) : bool :=
  match s with
  | EmptyString => true
  | String c s' => Ascii.eqb c " "%char && spaces s'
  end.

(** Strict SQL mode: only trailing spaces may be cut off. *)
Definition STRICT : overflow := λ width s,
  if spaces (String.substring width (String.length s - width) s)
  then Some (truncate width s) else None.

(** Non-strict SQL mode: whatever exceeds the width is cut off. *)
Definition NON_STRICT : overflow := λ width s, Some (truncate width s).

Fixpoint has_at (s : string) : bool :=
  match s with
  | EmptyString => false
  | String c s' => Ascii.eqb c "@"%char || has_at s'
  end.

(** A stand-in for pydantic's check: an address has an [@] in it and is
    kept as written. *)
Definition EmailStr (s : string) : option string :=
  if has_at s then Some s else None.

End Concrete.

(** ** Sample data for the examples *)
Module Sample.

Definition alice : User.t :=
  User.mk 1 "alice@example.com"
    (Concrete.phc_encode "NaCl" (Concrete.argon2 "NaCl" "secret1")) 0.

Definition bob : User.t :=
  User.mk 2 "bob@example.com"
    (Concrete.phc_encode "KCl" (Concrete.argon2 "KCl" "hunter22")) 5.

Definition note1 : Note.t := Note.mk 1 "alice@example.com" "t" "c" 10.
Definition note2 : Note.t := Note.mk 2 "bob@example.com" "shop" "milk" 20.
Definition note3 : Note.t := Note.mk 3 "alice@example.com" "later" "more" 30.

Definition db : Session :=
  {| users := [alice; bob]; notes := [note1; note2; note3];
     users_seq := 3; notes_seq := 4 |}.

(** 2001 characters: one more than the [content] column holds. *)
Definition long_text : string :=
  String.string_of_list_ascii (replicate 2001 "a"%char).

End Sample.

Section Service.

(** *** What the deployment and the libraries supply *)

(** [JWT_SECRET], read by [must_env] when the module is loaded. *)
Variable SECRET_KEY : string.

(** How the MySQL server treats a string wider than its column. *)
Variable on_overflow : overflow.

(** How MySQL evaluates [a = b] on the [email] and [owner_email] columns:
    the comparison of the columns' collation. The source passes both
    operands on as they are. *)
Variable collate_eq : string → string → bool.

(** passlib, scheme argon2. [argon2 salt password] is the digest;
    [phc_encode salt digest] is the stored string that carries the salt,
    the parameters and the digest, and [phc_decode] reads it back. *)
Variable argon2 : string → string → string.
Variable phc_encode : string → string → string.
Variable phc_decode : string → option (string * string).

(** python-jose. [json_dumps] and [json_loads] are the JSON codec on
    objects of scalars, [base64url_encode] and [base64url_decode] those of
    [jose.utils], and [sign algorithm key message] is the raw signature
    (for HS256 the HMAC-SHA256 tag of the message under the key). *)
Variable json_dumps : jobject → string.
Variable json_loads : string → option jobject.
Variable base64url_encode : string → string.
Variable base64url_decode : string → option string.
Variable sign : string → string → string → string.

(** pydantic's [EmailStr]: [None] for a string that is no e-mail address,
    otherwise the address in the normal form the validator gives it. *)
Variable EmailStr : string → option string.

(** *** passlib *)

(** [pwd_context.hash(password)], with the salt it draws made explicit.
    Passwords are taken to be within the size passlib accepts. *)
Definition pwd_context_hash (salt password : string) : string :=
  phc_encode salt (argon2 salt password).

(** [pwd_context.verify(password, hash)]: recompute under the stored salt
    and compare. A string that is no argon2 hash is not a mismatch but an
    error. *)
Definition pwd_context_verify (password hash : string) : result bool :=
  match phc_decode hash with
  | None => Raise UnknownHashError
  | Some (salt, digest) => Return (bool_decide (argon2 salt password = digest))
  end.

(** *** python-jose *)

(** [jwt.encode(claims, key, algorithm)] *)
Definition jwt_encode (claims : jobject) (key algorithm : string) : string :=
  let header := [("alg", JStr algorithm); ("typ", JStr "JWT")] in
  let signing_input :=
    base64url_encode (json_dumps header) +:+ "."
      +:+ base64url_encode (json_dumps claims) in
  signing_input +:+ "."
    +:+ base64url_encode (sign algorithm key signing_input).

(** The segments of a token: [(header, claims, signature)]. *)
Definition segments (token : string) : option (string * string * string) :=
  match rsplit_last token with
  | None => None
  | Some (signing_input, signature) =>
      match split_first signing_input with
      | None => None
      | Some (h, p) => Some (h, p, signature)
      end
  end.

(** [jws._load]: the header object, the payload bytes, the signing input
    and the signature bytes of a token. *)
Definition jws_load (token : string)
    : result (jobject * string * string * string) :=
  match segments token with
  | None => Raise (JWTError "Not enough segments")
  | Some (h, p, s) =>
      match base64url_decode h with
      | None => Raise (JWTError "Invalid header padding")
      | Some header_data =>
          match json_loads header_data with
          | None => Raise (JWTError "Invalid header string")
          | Some header =>
              match base64url_decode p, base64url_decode s with
              | Some payload, Some signature =>
                  Return (header, payload, h +:+ "." +:+ p, signature)
              | None, _ => Raise (JWTError "Invalid payload padding")
              | _, None => Raise (JWTError "Invalid crypto padding")
              end
          end
      end
  end.

(** The claim checks of [jwt.decode] that concern this service: [exp], if
    present, must not lie before the current second; [sub], if present,
    must be a string. (python-jose coerces [exp] with [int(_)]; every
    [exp] this service signs is an integer.) *)
Definition validate_claims (claims : jobject) (now : Z) : result jobject :=
  match get "exp" claims with
  | Some (JNum e) =>
      if bool_decide (e < now) then Raise (JWTError "Signature has expired.")
      else Return claims
  | Some _ =>
      Raise (JWTError "Expiration Time claim (exp) must be an integer.")
  | None => Return claims
  end ≫= λ claims,
  match get "sub" claims with
  | Some (JStr _) | None => Return claims
  | Some _ => Raise (JWTError "Subject must be a string.")
  end.

(** [jwt.decode(token, key, algorithms)] at time [now]. *)
Definition jwt_decode (token key : string) (algorithms : list string)
    (now : Z) : result jobject :=
  '(header, payload, signing_input, signature) ← jws_load token;
  match get "alg" header with
  | Some (JStr alg) =>
      if negb (bool_decide (alg ∈ algorithms)) then
        Raise (JWTError "The specified alg value is not allowed")
      else if negb (bool_decide
                      (signature = sign alg key signing_input)) then
        Raise (JWTError "Signature verification failed.")
      else
        match json_loads payload with
        | None => Raise (JWTError "Invalid payload string")
        | Some claims => validate_claims claims now
        end
  | _ => Raise (JWTError "The specified alg value is not allowed")
  end.

(** *** JWT HELPERS *)

Definition hash_password (salt password : string) : string :=
  pwd_context_hash salt password.

Definition verify_password (password password_hash : string) : result bool :=
  pwd_context_verify password password_hash.

Definition create_access_token (subject_email : string)
    (expires_minutes : Z) (now : Z) : string :=
  let expire := now + 60 * expires_minutes in
  let payload := [("sub", JStr subject_email); ("exp", JNum expire)] in
  jwt_encode payload SECRET_KEY ALGORITHM.

(** The [try] body raises its own 401 for a missing or empty subject; the
    [except JWTError] clause turns every decoding failure into the other
    401. jose has already refused a subject that is not a string. *)
Definition decode_token (token : string) (now : Z) : result string :=
  match jwt_decode token SECRET_KEY [ALGORITHM] now with
  | Return payload =>
      match get "sub" payload with
      | Some (JStr email) =>
          if negb (truthy (JStr email)) then
            Raise (HTTPException HTTP_401_UNAUTHORIZED "Invalid token")
          else Return email
      | _ => Raise (HTTPException HTTP_401_UNAUTHORIZED "Invalid token")
      end
  | Raise (JWTError _) =>
      Raise (HTTPException HTTP_401_UNAUTHORIZED "Invalid or expired token")
  | Raise e => Raise e
  end.

(** [db.query(User).filter(User.email == email).first()] *)
Definition user_by_email (email : string) (db : Session) : option User.t :=
  head (filter (λ u, collate_eq (User.email u) email = true) (users db)).

Definition require_user (creds : string) (now : Z) (db : Session)
    : result User.t :=
  email ← decode_token creds now;
  match user_by_email email db with
  | None => Raise (HTTPException HTTP_401_UNAUTHORIZED "User not found")
  | Some user => Return user
  end.

(** *** SCHEMAS: what pydantic checks before a handler is called *)

Definition validate_RegisterRequest (email password : string)
    : result RegisterRequest.t :=
  match EmailStr email with
  | Some address =>
      if bool_decide (6 ≤ String.length password ≤ 100)%nat
      then Return (RegisterRequest.mk address password)
      else Raise RequestValidationError
  | None => Raise RequestValidationError
  end.

Definition validate_LoginRequest (email password : string)
    : result LoginRequest.t :=
  match EmailStr email with
  | Some address => Return (LoginRequest.mk address password)
  | None => Raise RequestValidationError
  end.

(** [title: str] and [content: str] carry no [Field] constraint. *)
Definition validate_NoteCreate (title content : string)
    : result NoteCreate.t :=
  Return {| NoteCreate.title := title; NoteCreate.content := content |}.

(** *** AUTH ENDPOINTS *)

Definition register (payload : RegisterRequest.t) (salt : string) (now : Z)
    (db : Session) : result jobject * Session :=
  match user_by_email (RegisterRequest.email payload) db with
  | Some _ =>
      (Raise (HTTPException HTTP_409_CONFLICT "Email already registered"), db)
  | None =>
      (Return [("message", JStr "registered")],
       insert_user (RegisterRequest.email payload)
         (hash_password salt (RegisterRequest.password payload)) now db)
  end.

Definition login (payload : LoginRequest.t) (now : Z) (db : Session)
    : result TokenResponse.t :=
  match user_by_email (LoginRequest.email payload) db with
  | None =>
      Raise (HTTPException HTTP_401_UNAUTHORIZED "Invalid email or password")
  | Some user =>
      ok ← verify_password (LoginRequest.password payload)
             (User.password_hash user);
      if negb ok then
        Raise (HTTPException HTTP_401_UNAUTHORIZED "Invalid email or password")
      else
        Return {| TokenResponse.access_token :=
                    create_access_token (User.email user)
                      ACCESS_TOKEN_EXPIRE_MINUTES now;
                  TokenResponse.token_type := "bearer" |}
  end.

(** *** CRUD ENDPOINTS (PROTECTED) *)

Definition owned_by (user : User.t) (n : Note.t) : Prop :=
  collate_eq (Note.owner_email n) (User.email user) = true.

#[global] Instance owned_by_dec user n : Decision (owned_by user n).
Proof. unfold owned_by. apply _. Defined.

Definition list_notes (user : User.t) (db : Session) : list Note.t :=
  merge_sort id_desc (filter (owned_by user) (notes db)).

Definition create_note (payload : NoteCreate.t) (user : User.t) (now : Z)
    (db : Session) : result Note.t * Session :=
  insert_note on_overflow (User.email user) (NoteCreate.title payload)
    (NoteCreate.content payload) now db.

(** [db.query(Note).filter(Note.id == note_id,
                           Note.owner_email == user.email).first()] *)
Definition owned_note (note_id : Z) (user : User.t) (db : Session)
    : option Note.t :=
  head (filter (λ n, Note.id n = note_id ∧ owned_by user n) (notes db)).

Definition update_note (note_id : Z) (payload : NoteCreate.t) (user : User.t)
    (db : Session) : result Note.t * Session :=
  match owned_note note_id user db with
  | None => (Raise (HTTPException HTTP_404_NOT_FOUND "Note not found"), db)
  | Some note =>
      update_row on_overflow note (NoteCreate.title payload)
        (NoteCreate.content payload) db
  end.

Definition delete_note (note_id : Z) (user : User.t) (db : Session)
    : result jobject * Session :=
  match owned_note note_id user db with
  | None => (Raise (HTTPException HTTP_404_NOT_FOUND "Note not found"), db)
  | Some note => (Return [("message", JStr "deleted")], delete_row note db)
  end.

(** *** The routes: [Depends(require_user)], then the body schema, then
    the handler *)

Definition get_notes (creds : string) (now : Z) (db : Session)
    : result (list NoteOut.t) :=
  user ← require_user creds now db;
  Return (note_out <$> list_notes user db).

Definition post_notes (creds title content : string) (now : Z)
    (db : Session) : result Note.t * Session :=
  match require_user creds now db with
  | Raise e => (Raise e, db)
  | Return user =>
      match validate_NoteCreate title content with
      | Raise e => (Raise e, db)
      | Return payload => create_note payload user now db
      end
  end.

Definition put_notes (creds : string) (note_id : Z) (title content : string)
    (now : Z) (db : Session) : result Note.t * Session :=
  match require_user creds now db with
  | Raise e => (Raise e, db)
  | Return user =>
      match validate_NoteCreate title content with
      | Raise e => (Raise e, db)
      | Return payload => update_note note_id payload user db
      end
  end.

Definition delete_notes (creds : string) (note_id : Z) (now : Z)
    (db : Session) : result jobject * Session :=
  match require_user creds now db with
  | Raise e => (Raise e, db)
  | Return user => delete_note note_id user db
  end.

(** A run of [POST /notes] handler calls, each by its own user, starting
    from [db]; a call the store refuses leaves the tables as they were. *)
Definition creations (calls : list (NoteCreate.t * User.t * Z))
    (db : Session) : Session :=
  foldl (λ db call, (create_note call.1.1 call.1.2 call.2 db).2) db calls.

(** *** The two public routes: the body schema, then the handler *)

Definition post_register (email password salt : string) (now : Z)
    (db : Session) : result jobject * Session :=
  match validate_RegisterRequest email password with
  | Raise e => (Raise e, db)
  | Return payload => register payload salt now db
  end.

Definition post_login (email password : string) (now : Z) (db : Session)
    : result TokenResponse.t :=
  payload ← validate_LoginRequest email password;
  login payload now db.

(** *** The service as a whole: requests and what they leave behind *)

Inductive request : Type :=
  | POST_register (email password salt : string)
  | POST_login (email password : string)
  | GET_notes (creds : string)
  | POST_notes (creds title content : string)
  | PUT_notes (creds : string) (note_id : Z) (title content : string)
  | DELETE_notes (creds : string) (note_id : Z).

(** The session after a request that arrives at time [now]. *)
Definition handle (r : request) (now : Z) (db : Session) : Session :=
  match r with
  | POST_register email password salt =>
      (post_register email password salt now db).2
  | POST_login _ _ | GET_notes _ => db
  | POST_notes creds title content =>
      (post_notes creds title content now db).2
  | PUT_notes creds note_id title content =>
      (put_notes creds note_id title content now db).2
  | DELETE_notes creds note_id => (delete_notes creds note_id now db).2
  end.

Definition run (requests : list (request * Z)) (db : Session) : Session :=
  foldl (λ db r, handle r.1 r.2 db) db requests.

(** No stored address equals, for the store, an address stored before it. *)
Definition users_distinct (db : Session) : Prop :=
  ∀ i j u v, (i < j)%nat →
    users db !! i = Some u → users db !! j = Some v →
    collate_eq (User.email u) (User.email v) = false.

(** Every note belongs to a stored user. *)
Definition owners_registered (db : Session) : Prop :=
  ∀ n, n ∈ notes db →
    ∃ u, u ∈ users db ∧ Note.owner_email n = User.email u.

(** Every stored address went through [EmailStr]. *)
Definition emails_validated (db : Session) : Prop :=
  ∀ u, u ∈ users db → ∃ raw, EmailStr raw = Some (User.email u).

(** [id] is the primary key of [users] too. *)
Definition users_key (db : Session) : Prop :=
  NoDup (User.id <$> users db)
  ∧ Forall (λ u, User.id u < users_seq db) (users db).

Definition consistent (db : Session) : Prop :=
  primary_key db ∧ users_key db ∧ users_distinct db
  ∧ owners_registered db ∧ emails_validated db.


(** *** The three ways a token can be bad, in the spec's words *)

(** The header and the claims of a token: it has three segments, each is
    base64url, and the first two hold JSON objects. *)
Definition parse_token (token : string) : option (jobject * jobject) :=
  match jws_load token with
  | Return (header, payload, _, _) =>
      match json_loads payload with
      | Some claims => Some (header, claims)
      | None => None
      end
  | Raise _ => None
  end.

Definition malformed (token : string) : bool :=
  match parse_token token with Some _ => false | None => true end.

Definition signature_verifies (token : string) : bool :=
  match jws_load token with
  | Return (_, _, signing_input, signature) =>
      bool_decide (signature = sign ALGORITHM SECRET_KEY signing_input)
  | Raise _ => false
  end.

Definition expired (token : string) (now : Z) : bool :=
  match parse_token token with
  | Some (_, claims) =>
      match get "exp" claims with
      | Some (JNum e) => bool_decide (e < now)
      | _ => false
      end
  | None => false
  end.

(** *** What is assumed of the libraries *)

(** Both codecs read back what they wrote. *)
Hypothesis json_loads_dumps : ∀ o, json_loads (json_dumps o) = Some o.
Hypothesis base64url_decode_encode :
  ∀ s, base64url_decode (base64url_encode s) = Some s.

(** The base64url alphabet has no dot. *)
Hypothesis base64url_dotfree : ∀ s, dotfree (base64url_encode s) = true.

(** Reading a stored hash gives the salt and the digest it was built from. *)
Hypothesis phc_decode_encode :
  ∀ salt digest, phc_decode (phc_encode salt digest) = Some (salt, digest).

(** The idealised hash: under one salt, two passwords with the same
    digest are the same password. *)
Hypothesis argon2_collision_free :
  ∀ salt p w, argon2 salt w = argon2 salt p → w = p.

(** Every string compares equal to itself under the collation. *)
Hypothesis collate_eq_refl : ∀ e, collate_eq e e = true.

(** *** Splitting a token *)

Lemma split_first_app a b :
  dotfree a = true → split_first (a +:+ "." +:+ b) = Some (a, b).
Proof.
  induction a as [|c a IH]; simpl; [done|].
  intros [Hc Ha]%andb_true_iff.
  destruct (is_dot c); [done|]. by rewrite IH.
Qed.

Lemma rsplit_last_dotfree b : dotfree b = true → rsplit_last b = None.
Proof.
  induction b as [|c b IH]; simpl; [done|].
  intros [Hc Hb]%andb_true_iff. rewrite IH by done.
  by destruct (is_dot c).
Qed.

Lemma rsplit_last_app a b :
  dotfree b = true → rsplit_last (a +:+ "." +:+ b) = Some (a, b).
Proof.
  intros Hb. induction a as [|c a IH]; simpl.
  - by rewrite rsplit_last_dotfree.
  - by rewrite IH.
Qed.

Lemma segments_join h p s :
  dotfree h = true → dotfree s = true →
  segments ((h +:+ "." +:+ p) +:+ "." +:+ s) = Some (h, p, s).
Proof.
  intros Hh Hs. unfold segments.
  rewrite rsplit_last_app by done. by rewrite split_first_app.
Qed.

(** A token without a dot has no segments. *)
Lemma segments_dotfree token : dotfree token = true → segments token = None.
Proof. intros H. unfold segments. by rewrite rsplit_last_dotfree. Qed.

(** *** Decoding what [jwt_encode] produced *)

Lemma jwt_decode_encode claims key now :
  jwt_decode (jwt_encode claims key ALGORITHM) key [ALGORITHM] now
  = validate_claims claims now.
Proof.
  unfold jwt_decode, jwt_encode, jws_load.
  rewrite segments_join by auto.
  rewrite !base64url_decode_encode, json_loads_dumps. simpl.
  rewrite bool_decide_true by done. simpl.
  by rewrite json_loads_dumps.
Qed.

Lemma validate_claims_issued email e now :
  validate_claims [("sub", JStr email); ("exp", JNum e)] now
  = if bool_decide (e < now) then Raise (JWTError "Signature has expired.")
    else Return [("sub", JStr email); ("exp", JNum e)].
Proof.
  unfold validate_claims. simpl get. cbv beta iota.
  case_bool_decide; reflexivity.
Qed.

(** What [decode_token] answers for a token of this service, in full. *)
Lemma decode_token_issued email minutes t0 now :
  decode_token (create_access_token email minutes t0) now
  = if bool_decide (t0 + 60 * minutes < now) then
      Raise (HTTPException HTTP_401_UNAUTHORIZED "Invalid or expired token")
    else if bool_decide (email = EmptyString) then
      Raise (HTTPException HTTP_401_UNAUTHORIZED "Invalid token")
    else Return email.
Proof.
  unfold decode_token, create_access_token.
  rewrite jwt_decode_encode, validate_claims_issued.
  case_bool_decide; [done|]. simpl. by case_bool_decide.
Qed.

Lemma validate_claims_expired claims now e :
  get "exp" claims = Some (JNum e) → e < now →
  validate_claims claims now = Raise (JWTError "Signature has expired.").
Proof.
  intros Hexp Hlt. unfold validate_claims. rewrite Hexp.
  by rewrite bool_decide_true.
Qed.

Lemma jwt_decode_rejects token now :
  malformed token = true ∨ signature_verifies token = false
    ∨ expired token now = true →
  ∃ msg, jwt_decode token SECRET_KEY [ALGORITHM] now = Raise (JWTError msg).
Proof.
  unfold malformed, signature_verifies, expired, parse_token, jwt_decode.
  assert (∀ e, (∃ msg, e = JWTError msg) →
               ∃ msg, @Raise jobject e = Raise (JWTError msg)) as Hraise.
  { intros e [msg ->]. by exists msg. }
  assert (∀ r, jws_load token = Raise r → ∃ msg, r = JWTError msg) as Hload.
  { unfold jws_load. intros r.
    destruct (segments token) as [[[h p] s]|]; [|intros [= <-]; by eexists].
    destruct (base64url_decode h); [|intros [= <-]; by eexists].
    destruct (json_loads _); [|intros [= <-]; by eexists].
    destruct (base64url_decode p), (base64url_decode s);
      intros [= <-]; by eexists. }
  intros H.
  destruct (jws_load token) as [[[[header payload] signing_input] signature]|r]
    eqn:Hl; simpl; [|by apply Hraise, Hload].
  destruct (get "alg" header) as [[| | |alg]|]; try (eexists; reflexivity).
  destruct (decide (alg ∈ [ALGORITHM])) as [->%list_elem_of_singleton|];
    [rewrite bool_decide_true by constructor
    |rewrite bool_decide_false by done; eexists; reflexivity].
  destruct (decide (signature = sign ALGORITHM SECRET_KEY signing_input))
    as [Hsig|Hsig];
    [|rewrite (bool_decide_false _ Hsig); eexists; reflexivity].
  rewrite !(bool_decide_true _ Hsig) in *. simpl.
  destruct (json_loads payload) as [claims|]; [|eexists; reflexivity].
  destruct H as [?|[?|Hexp]]; [done..|].
  destruct (get "exp" claims) as [[| |e|]|] eqn:He; try done.
  apply bool_decide_eq_true in Hexp.
  erewrite validate_claims_expired by done. eauto.
Qed.

(** *** Queries *)

#[local] Instance id_desc_trans : Transitive id_desc.
Proof. unfold id_desc. intros a b c ??. lia. Qed.

#[local] Instance id_desc_total : Total id_desc.
Proof. unfold id_desc. intros a b. lia. Qed.

Lemma owned_note_None note_id user db :
  owned_note note_id user db = None
  ↔ ∀ n, n ∈ notes db → Note.id n = note_id → ¬ owned_by user n.
Proof.
  unfold owned_note. rewrite head_None. split.
  - intros Hnil n Hn Hid Hown.
    by eapply (filter_nil_not_elem_of _ _ n Hnil).
  - intros Hall.
    destruct (filter _ (notes db)) as [|n l] eqn:Hf; [done|].
    assert (n ∈ filter (λ n, Note.id n = note_id ∧ owned_by user n)
                  (notes db)) as Hn by (rewrite Hf; left).
    apply list_elem_of_filter in Hn as [[??] ?]. by edestruct Hall.
Qed.

Lemma owned_note_Some note_id user db note :
  owned_note note_id user db = Some note →
  note ∈ notes db ∧ Note.id note = note_id ∧ owned_by user note.
Proof.
  unfold owned_note. intros Hn%head_Some_elem_of.
  apply list_elem_of_filter in Hn as [[Hid Hown] Hin]. by split_and!.
Qed.

Lemma user_by_email_None email db :
  user_by_email email db = None
  ↔ ∀ u, u ∈ users db → collate_eq (User.email u) email = false.
Proof.
  unfold user_by_email. rewrite head_None. split.
  - intros Hnil u Hu. apply not_true_is_false. intros Heq.
    by eapply (filter_nil_not_elem_of _ _ u Hnil).
  - intros Hall.
    destruct (filter _ (users db)) as [|u l] eqn:Hf; [done|].
    assert (u ∈ filter (λ u, collate_eq (User.email u) email = true)
                  (users db)) as Hu by (rewrite Hf; left).
    apply list_elem_of_filter in Hu as [Heq Hu].
    apply Hall in Hu. congruence.
Qed.

Lemma user_by_email_Some email db user :
  user_by_email email db = Some user →
  user ∈ users db ∧ collate_eq (User.email user) email = true.
Proof.
  unfold user_by_email. intros Hu%head_Some_elem_of.
  by apply list_elem_of_filter in Hu as [Heq Hin].
Qed.

(** After an insert the e-mail address is taken. *)
Lemma user_by_email_insert email hash now db :
  is_Some (user_by_email email (insert_user email hash now db)).
Proof.
  unfold user_by_email, insert_user. simpl.
  rewrite filter_app, (filter_singleton_True _ _ []) by (simpl; auto).
  apply head_is_Some. by destruct (filter _ (users db)).
Qed.

(** *** The primary key *)

Lemma primary_key_empty : primary_key empty_db.
Proof. split; simpl; constructor. Qed.

Lemma insert_note_primary_key m owner title content now db :
  primary_key db →
  primary_key (insert_note m owner title content now db).2.
Proof.
  intros [Hnodup Hbelow]. unfold insert_note.
  destruct (store_string m Note.title_width title) as [t|];
    destruct (store_string m Note.content_width content) as [c|];
    try done.
  split; simpl.
  - rewrite fmap_app. apply NoDup_app.
    split; [done|]. split; [|apply NoDup_singleton].
    intros k Hk Hk'. apply list_elem_of_singleton in Hk'. simpl in Hk'.
    apply list_elem_of_fmap in Hk as (n & Hid & Hn).
    rewrite Forall_forall in Hbelow. apply Hbelow in Hn. lia.
  - apply Forall_app. split.
    + eapply Forall_impl; [done|]. simpl. intros n ?. lia.
    + apply Forall_singleton. simpl. lia.
Qed.

Lemma creations_primary_key calls db :
  primary_key db → primary_key (creations calls db).
Proof.
  unfold creations. revert db.
  induction calls as [|call calls IH]; intros db Hpk; simpl; [done|].
  apply IH. by apply insert_note_primary_key.
Qed.

Lemma update_row_primary_key m note title content db :
  primary_key db → primary_key (update_row m note title content db).2.
Proof.
  intros [Hnodup Hbelow]. unfold update_row.
  destruct (store_string m Note.title_width title) as [t|];
    destruct (store_string m Note.content_width content) as [c|];
    try done.
  split; simpl.
  - rewrite <-list_fmap_compose.
    erewrite list_fmap_ext; [exact Hnodup|].
    intros i n _. unfold compose. by destruct (bool_decide _).
  - apply Forall_fmap. eapply Forall_impl; [done|].
    intros n ?. unfold compose. by destruct (bool_decide _).
Qed.

Lemma NoDup_id_filter (P : Note.t → Prop) `{∀ n, Decision (P n)} l :
  NoDup (Note.id <$> l) → NoDup (Note.id <$> filter P l).
Proof.
  induction l as [|n l IH]; [done|].
  intros [Hn Hl]%NoDup_cons.
  rewrite filter_cons. case_decide; [|by apply IH].
  rewrite fmap_cons. apply NoDup_cons. split; [|by apply IH].
  intros (n' & Hid & [_ Hn']%list_elem_of_filter)%list_elem_of_fmap.
  apply Hn. rewrite Hid. by apply list_elem_of_fmap_2.
Qed.

Lemma delete_row_primary_key note db :
  primary_key db → primary_key (delete_row note db).
Proof.
  intros [Hnodup Hbelow]. split; simpl.
  - by apply NoDup_id_filter.
  - rewrite Forall_forall in Hbelow |- *.
    intros n [_ Hn]%list_elem_of_filter. by apply Hbelow.
Qed.

(** Under the primary key a row is known by its id. *)
Lemma same_id_same_row (l : list Note.t) n1 n2 :
  NoDup (Note.id <$> l) → n1 ∈ l → n2 ∈ l →
  Note.id n1 = Note.id n2 → n1 = n2.
Proof.
  induction l as [|n l IH]; simpl; [by intros _ ?%elem_of_nil|].
  intros [Hn Hl]%NoDup_cons [->|H1]%elem_of_cons [->|H2]%elem_of_cons Hid;
    [done|..|by apply IH].
  - destruct Hn. rewrite Hid. by apply list_elem_of_fmap_2.
  - destruct Hn. rewrite <-Hid. by apply list_elem_of_fmap_2.
Qed.

Lemma sorted_strict (l : list Note.t) :
  StronglySorted id_desc l → NoDup (Note.id <$> l) →
  StronglySorted id_desc_strict l.
Proof.
  induction 1 as [|n l Hl IH Hn]; simpl; [constructor|].
  intros [Hnotin Hnodup]%NoDup_cons. constructor; [by apply IH|].
  rewrite Forall_forall in Hn |- *. intros n' Hn'.
  specialize (Hn n' Hn'). unfold id_desc, id_desc_strict in *.
  assert (Note.id n' ≠ Note.id n); [|lia].
  intros Heq. apply Hnotin. rewrite <-Heq. by apply list_elem_of_fmap_2.
Qed.

(** *** Properties of the handlers *)

(** The lookup of [update_note] and [delete_note] fails exactly when no note
    with that id is the caller's; then both raise 404 and commit nothing. *)
Lemma not_owned_not_found note_id payload user db :
  (∀ n, n ∈ notes db → Note.id n = note_id → ¬ owned_by user n) →
  update_note note_id payload user db
    = (Raise (HTTPException 404 "Note not found"), db)
  ∧ delete_note note_id user db
    = (Raise (HTTPException 404 "Note not found"), db).
Proof.
  intros Hq%owned_note_None. unfold update_note, delete_note. by rewrite Hq.
Qed.

(** C1. A PUT or DELETE on a note id by user B answers the same
    404 "Note not found" and leaves the session as it was, both when no
    note has that id ([db_absent]) and when the note with that id exists
    but is another user's ([db_other], where [id] is the primary key): the
    two responses are equal, so the caller cannot tell the cases apart. *)
Theorem foreign_note_not_found (note_id : Z) (payload : NoteCreate.t)
    (user_b : User.t) (db_absent db_other : Session) (note_a : Note.t) :
  (∀ n, n ∈ notes db_absent → Note.id n ≠ note_id) →
  primary_key db_other →
  note_a ∈ notes db_other →
  Note.id note_a = note_id →
  ¬ owned_by user_b note_a →
  update_note note_id payload user_b db_absent
    = (Raise (HTTPException 404 "Note not found"), db_absent)
  ∧ update_note note_id payload user_b db_other
    = (Raise (HTTPException 404 "Note not found"), db_other)
  ∧ delete_note note_id user_b db_absent
    = (Raise (HTTPException 404 "Note not found"), db_absent)
  ∧ delete_note note_id user_b db_other
    = (Raise (HTTPException 404 "Note not found"), db_other)
  ∧ note_a ∈ notes db_other.
Proof.
  intros Habsent [Hnodup _] Hin Hid Hforeign.
  destruct (not_owned_not_found note_id payload user_b db_absent)
    as [Hupd_absent Hdel_absent].
  { intros n Hn Hn'. by destruct (Habsent n). }
  destruct (not_owned_not_found note_id payload user_b db_other)
    as [Hupd_other Hdel_other].
  { intros n Hn Hn' Hown. apply Hforeign.
    by rewrite (same_id_same_row (notes db_other) note_a n) by congruence. }
  by split_and!.
Qed.

(** C2. Registering an e-mail address that no stored user has returns
    normally (status 201) and appends one user with that address and the
    hash of the password; registering the same address again on the
    resulting session raises 409 and returns that session unchanged. *)
Theorem register_once (payload again : RegisterRequest.t)
    (salt salt' : string) (now now' : Z) (db : Session) :
  (∀ u, u ∈ users db →
        collate_eq (User.email u) (RegisterRequest.email payload) = false) →
  RegisterRequest.email again = RegisterRequest.email payload →
  let created :=
    User.mk (users_seq db) (RegisterRequest.email payload)
      (hash_password salt (RegisterRequest.password payload)) now in
  let db' := (register payload salt now db).2 in
  (register payload salt now db).1 = Return [("message", JStr "registered")]
  ∧ status_of 201 (register payload salt now db).1 = 201
  ∧ users db' = users db ++ [created]
  ∧ notes db' = notes db
  ∧ register again salt' now' db'
    = (Raise (HTTPException 409 "Email already registered"), db').
Proof.
  intros Hfresh Hsame created db'. subst created db'.
  apply user_by_email_None in Hfresh.
  assert (register payload salt now db
          = (Return [("message", JStr "registered")],
             insert_user (RegisterRequest.email payload)
               (hash_password salt (RegisterRequest.password payload))
               now db)) as ->.
  { unfold register. by rewrite Hfresh. }
  simpl. split_and!; try done.
  unfold register. rewrite Hsame.
  by destruct (user_by_email_insert (RegisterRequest.email payload)
    (hash_password salt (RegisterRequest.password payload)) now db) as [u ->].
Qed.

(** *** Properties of the helpers *)


(** C5. Whatever the token string, [decode_token] raises 401 "Invalid or
    expired token" when the token is malformed, when its signature is not
    the one the secret key gives, or when its [exp] lies before the
    current time; in particular a token of this service checked later than
    60 minutes after it was issued is refused. *)
Theorem decode_token_rejects (now : Z) :
  (∀ token,
     malformed token = true ∨ signature_verifies token = false
       ∨ expired token now = true →
     decode_token token now
     = Raise (HTTPException 401 "Invalid or expired token"))
  ∧ (∀ email t0,
       t0 + 60 * 60 < now →
       decode_token (create_access_token email ACCESS_TOKEN_EXPIRE_MINUTES t0)
         now
       = Raise (HTTPException 401 "Invalid or expired token")).
Proof.
  split.
  - intros token [msg Hbad]%jwt_decode_rejects.
    unfold decode_token. by rewrite Hbad.
  - intros email t0 Hlate. rewrite decode_token_issued.
    by rewrite bool_decide_true by (unfold ACCESS_TOKEN_EXPIRE_MINUTES; lia).
Qed.



(** C4. After any run of note creations by any users, from any session,
    listing for a user returns exactly the stored notes whose
    [owner_email] equals the user's address, each as often as it is
    stored, and in descending order of [id]; where the run started from a
    session that respects the primary key, the order is strict. Equality
    of addresses is the store's; where the store compares character by
    character it is equality of strings. *)
Theorem list_notes_owner_desc (calls : list (NoteCreate.t * User.t * Z))
    (db0 : Session) (user : User.t) :
  let db := creations calls db0 in
  StronglySorted id_desc (list_notes user db)
  ∧ (∀ n, n ∈ list_notes user db ↔ n ∈ notes db ∧ owned_by user n)
  ∧ list_notes user db ≡ₚ filter (owned_by user) (notes db)
  ∧ ((∀ a b, collate_eq a b = true ↔ a = b) →
     ∀ n, n ∈ list_notes user db
          ↔ n ∈ notes db ∧ Note.owner_email n = User.email user)
  ∧ (primary_key db0 → StronglySorted id_desc_strict (list_notes user db)).
Proof.
  intros db.
  assert (StronglySorted id_desc (list_notes user db)) as Hsorted.
  { apply StronglySorted_merge_sort; apply _. }
  assert (∀ n, n ∈ list_notes user db ↔ n ∈ notes db ∧ owned_by user n)
    as Hmem.
  { intros n. unfold list_notes.
    rewrite merge_sort_Permutation, list_elem_of_filter.
    split; intros [??]; by split. }
  unfold list_notes in *. split_and!; [done..| | |].
  - apply merge_sort_Permutation.
  - intros Hexact n. rewrite Hmem. unfold owned_by. by rewrite Hexact.
  - intros [Hnodup _]%(creations_primary_key calls).
    apply sorted_strict; [done|].
    rewrite merge_sort_Permutation. by apply NoDup_id_filter.
Qed.

Lemma store_string_fits m width s :
  (String.length s ≤ width)%nat → store_string m width s = Return s.
Proof. intros H. unfold store_string. by rewrite bool_decide_true. Qed.

Lemma truncate_length width s :
  (String.length (truncate width s) ≤ width)%nat.
Proof.
  unfold truncate. revert s.
  induction width as [|w IH]; intros [|c s]; simpl; try lia.
  specialize (IH s). lia.
Qed.

Lemma store_string_cases (p : overflow) width s :
  store_string p width s = Raise DataError
  ∨ ∃ s', store_string p width s = Return s'.
Proof.
  unfold store_string. case_bool_decide; [by eauto|].
  destruct (p width s); eauto.
Qed.

Lemma update_row_Return note title content db note' db' :
  update_row on_overflow note title content db = (Return note', db') →
  ∃ t c,
    store_string on_overflow Note.title_width title = Return t
    ∧ store_string on_overflow Note.content_width content = Return c
    ∧ note' = with_text t c note
    ∧ db' = set_notes
              ((λ n, if bool_decide (Note.id n = Note.id note)
                     then with_text t c n else n) <$> notes db) db.
Proof.
  unfold update_row.
  destruct (store_string on_overflow Note.title_width title) as [t|];
    destruct (store_string on_overflow Note.content_width content) as [c|];
    intros [= <- <-]. by exists t, c.
Qed.

(** C8. When [update_note] returns normally, the caller owns a note with
    that id, and the new session differs from the old one only in the
    [title] and [content] of the rows with that id: the users table and
    the counters are the same, every row keeps its position, its [id],
    [owner_email] and [created_at], and a row with another id is the same
    row as before. Under the primary key the rows with that id are the
    one note, so every other note is unchanged. *)
Theorem update_note_frame (note_id : Z) (payload : NoteCreate.t)
    (user : User.t) (db db' : Session) (note' : Note.t) :
  update_note note_id payload user db = (Return note', db') →
  ∃ note,
    note ∈ notes db ∧ Note.id note = note_id ∧ owned_by user note
    ∧ Note.id note' = Note.id note
    ∧ Note.owner_email note' = Note.owner_email note
    ∧ Note.created_at note' = Note.created_at note
    ∧ users db' = users db
    ∧ users_seq db' = users_seq db
    ∧ notes_seq db' = notes_seq db
    ∧ length (notes db') = length (notes db)
    ∧ (∀ i n, notes db !! i = Some n →
         ∃ n', notes db' !! i = Some n'
           ∧ Note.id n' = Note.id n
           ∧ Note.owner_email n' = Note.owner_email n
           ∧ Note.created_at n' = Note.created_at n
           ∧ (Note.id n = note_id →
              Note.title n' = Note.title note'
              ∧ Note.content n' = Note.content note')
           ∧ (Note.id n ≠ note_id → n' = n))
    ∧ (primary_key db →
         primary_key db'
         ∧ ∀ i n, notes db !! i = Some n → n ≠ note →
             notes db' !! i = Some n).
Proof.
  unfold update_note.
  destruct (owned_note note_id user db) as [note|] eqn:Hq; [|done].
  apply owned_note_Some in Hq as (Hin & Hid & Hown).
  intros Hupd. exists note.
  pose proof (update_row_primary_key on_overflow note
                (NoteCreate.title payload) (NoteCreate.content payload) db)
    as Hpk.
  rewrite Hupd in Hpk.
  apply update_row_Return in Hupd as (t & c & _ & _ & -> & ->).
  split_and!; try done.
  - simpl. apply length_fmap.
  - intros i n Hn. simpl. rewrite list_lookup_fmap, Hn. simpl.
    rewrite Hid. case_bool_decide; eexists; split_and!; done.
  - intros Hkey. split; [by apply Hpk|].
    intros i n Hn Hne. simpl. rewrite list_lookup_fmap, Hn. simpl.
    rewrite bool_decide_false; [done|]. intros Hsame. apply Hne.
    destruct Hkey as [Hnodup _].
    eapply same_id_same_row; [done| |done..].
    by eapply list_elem_of_lookup_2.
Qed.

Lemma insert_note_Return owner title content now db note db' :
  insert_note on_overflow owner title content now db = (Return note, db') →
  ∃ t c,
    store_string on_overflow Note.title_width title = Return t
    ∧ store_string on_overflow Note.content_width content = Return c
    ∧ note = Note.mk (notes_seq db) owner t c now
    ∧ db' = {| users := users db; notes := notes db ++ [note];
               users_seq := users_seq db; notes_seq := notes_seq db + 1 |}.
Proof.
  unfold insert_note.
  destruct (store_string on_overflow Note.title_width title) as [t|];
    destruct (store_string on_overflow Note.content_width content) as [c|];
    intros [= <- <-]. by exists t, c.
Qed.

(** C10. When [POST /notes] returns a note, the bearer token decoded to
    some subject, [require_user] resolved that subject to a stored user,
    and the note that was appended to the table carries that user's
    address as [owner_email]. The request consists of the credentials, a
    title and a content: there is no owner for the caller to choose. *)
Theorem post_notes_owner (creds title content : string) (now : Z)
    (db db' : Session) (note : Note.t) :
  post_notes creds title content now db = (Return note, db') →
  ∃ subject user,
    decode_token creds now = Return subject
    ∧ user_by_email subject db = Some user
    ∧ require_user creds now db = Return user
    ∧ Note.owner_email note = User.email user
    ∧ notes db' = notes db ++ [note]
    ∧ users db' = users db.
Proof.
  unfold post_notes, require_user.
  destruct (decode_token creds now) as [subject|]; [simpl|done].
  destruct (user_by_email subject db) as [user|] eqn:Huser; [simpl|done].
  unfold create_note.
  intros (t & c & _ & _ & -> & ->)%insert_note_Return.
  by exists subject, user.
Qed.

(** *** More on tokens and the identity resolver *)





Lemma jws_load_encode claims key algorithm :
  let header := [("alg", JStr algorithm); ("typ", JStr "JWT")] in
  let signing_input :=
    base64url_encode (json_dumps header) +:+ "."
      +:+ base64url_encode (json_dumps claims) in
  jws_load (jwt_encode claims key algorithm)
  = Return (header, json_dumps claims, signing_input,
            sign algorithm key signing_input).
Proof.
  intros header signing_input. unfold jws_load, jwt_encode.
  rewrite segments_join by auto.
  by rewrite !base64url_decode_encode, json_loads_dumps.
Qed.


(** X3. Only HS256 is accepted: a token made for any other algorithm is
    refused with 401 "Invalid or expired token", whatever its claims and
    even if it was signed with the service's key. *)
Theorem decode_token_other_algorithm (claims : jobject)
    (key algorithm : string) (now : Z) :
  algorithm ≠ ALGORITHM →
  decode_token (jwt_encode claims key algorithm) now
  = Raise (HTTPException 401 "Invalid or expired token").
Proof.
  intros Halg. unfold decode_token, jwt_decode.
  rewrite jws_load_encode. simpl.
  rewrite bool_decide_false; [done|].
  by intros ->%list_elem_of_singleton.
Qed.



(** *** Registering, logging in and using the token *)

Lemma user_by_email_insert_fresh email hash now db :
  (∀ u, u ∈ users db → collate_eq (User.email u) email = false) →
  user_by_email email (insert_user email hash now db)
  = Some (User.mk (users_seq db) email hash now).
Proof.
  intros Hfresh%user_by_email_None. unfold user_by_email in *.
  apply head_None in Hfresh. simpl.
  rewrite filter_app, Hfresh. simpl.
  by rewrite (filter_singleton_True _ _ []) by (simpl; auto).
Qed.


Lemma user_by_email_prefix email db db' user :
  users db `prefix_of` users db' →
  user_by_email email db = Some user → user_by_email email db' = Some user.
Proof.
  intros [later Hlater]. unfold user_by_email. rewrite Hlater, filter_app.
  by destruct (filter _ (users db)).
Qed.

Lemma user_by_email_self email db user :
  (∀ a b, collate_eq a b = true → collate_eq b a = true) →
  (∀ a b c, collate_eq a b = true → collate_eq b c = true →
            collate_eq a c = true) →
  user_by_email email db = Some user →
  user_by_email (User.email user) db = Some user.
Proof.
  intros Hsym Htrans Hu. unfold user_by_email in *.
  pose proof (user_by_email_Some _ _ _ Hu) as [_ Heq].
  erewrite list_filter_iff; [exact Hu|].
  intros u. simpl. split; intros Hq.
  - eapply Htrans; [exact Hq|exact Heq].
  - eapply Htrans; [exact Hq|]. by apply Hsym.
Qed.

(** X7. The token that [login] returns authenticates as the user who logged
    in: until it expires, and on every later session that still begins
    with the users stored at login, [require_user] returns that very user.
    The store's comparison is taken to be an equivalence and the stored
    addresses to be non-empty. *)
Theorem login_token_authenticates (payload : LoginRequest.t)
    (tok : TokenResponse.t) (t0 now : Z) (db db' : Session) :
  (∀ a b, collate_eq a b = true → collate_eq b a = true) →
  (∀ a b c, collate_eq a b = true → collate_eq b c = true →
            collate_eq a c = true) →
  (∀ u, u ∈ users db → User.email u ≠ EmptyString) →
  login payload t0 db = Return tok →
  users db `prefix_of` users db' →
  now ≤ t0 + 60 * ACCESS_TOKEN_EXPIRE_MINUTES →
  ∃ user,
    user_by_email (LoginRequest.email payload) db = Some user
    ∧ TokenResponse.token_type tok = "bearer"
    ∧ require_user (TokenResponse.access_token tok) now db' = Return user.
Proof.
  intros Hsym Htrans Hne Hlogin Hprefix Hnow. unfold login in Hlogin.
  destruct (user_by_email (LoginRequest.email payload) db)
    as [user|] eqn:Hu; [|done].
  destruct (verify_password _ _) as [[]|]; simplify_eq/=.
  exists user. split_and!; [done..|].
  unfold require_user. rewrite decode_token_issued.
  rewrite bool_decide_false by lia.
  rewrite bool_decide_false
    by (apply Hne; by apply user_by_email_Some in Hu as [? _]).
  simpl.
  by rewrite (user_by_email_prefix _ db db' user Hprefix
                (user_by_email_self _ _ _ Hsym Htrans Hu)).
Qed.

(** *** Notes: what a change leaves for later reads *)

Lemma filter_ext_in {A} (P Q : A → Prop)
    `{!∀ x, Decision (P x), !∀ x, Decision (Q x)} (l : list A) :
  (∀ x, x ∈ l → P x ↔ Q x) → filter P l = filter Q l.
Proof.
  induction l as [|a l IH]; intros Hext; [done|].
  rewrite !filter_cons, IH by (intros x Hx; apply Hext; by right).
  destruct (decide (P a)) as [HP|HP], (decide (Q a)) as [HQ|HQ]; try done.
  - destruct HQ. apply Hext; [left|done].
  - destruct HP. apply Hext; [left|done].
Qed.

Lemma filter_fmap_preserved {A} (P : A → Prop) `{!∀ x, Decision (P x)}
    (f : A → A) (l : list A) :
  (∀ x, P (f x) ↔ P x) → filter P (f <$> l) = f <$> filter P l.
Proof.
  intros Hext. induction l as [|a l IH]; [done|].
  rewrite fmap_cons, !filter_cons, IH.
  destruct (decide (P (f a))) as [HP|HP], (decide (P a)) as [HQ|HQ];
    try done.
  - destruct HQ. by apply Hext.
  - destruct HP. by apply Hext.
Qed.

Lemma StronglySorted_filter {A} (R : relation A) (P : A → Prop)
    `{!∀ x, Decision (P x)} (l : list A) :
  StronglySorted R l → StronglySorted R (filter P l).
Proof.
  induction 1 as [|a l Hl IH Ha]; [constructor|].
  rewrite filter_cons. destruct (decide (P a)); [|done].
  constructor; [done|].
  rewrite Forall_forall in Ha |- *.
  intros x [_ Hx]%list_elem_of_filter. by apply Ha.
Qed.

(** Under the primary key the listing is the one sorted arrangement of the
    caller's rows. *)
Lemma list_notes_unique user db l :
  NoDup (Note.id <$> notes db) →
  StronglySorted id_desc l →
  l ≡ₚ filter (owned_by user) (notes db) →
  list_notes user db = l.
Proof.
  intros Hnodup Hsorted Hperm. unfold list_notes.
  apply (StronglySorted_unique_strong id_desc).
  - intros x1 x2 H1 H2 H12 H21.
    rewrite merge_sort_Permutation in H1. rewrite Hperm in H2.
    apply list_elem_of_filter in H1 as [_ H1].
    apply list_elem_of_filter in H2 as [_ H2].
    apply (same_id_same_row (notes db)); [done..|].
    unfold id_desc in *. lia.
  - apply StronglySorted_merge_sort; apply _.
  - done.
  - by rewrite merge_sort_Permutation.
Qed.

Lemma list_notes_elem_of user db n :
  n ∈ list_notes user db ↔ n ∈ notes db ∧ owned_by user n.
Proof.
  unfold list_notes. rewrite merge_sort_Permutation, list_elem_of_filter.
  split; intros [??]; by split.
Qed.

Lemma create_note_listed payload user now db note db' :
  primary_key db →
  create_note payload user now db = (Return note, db') →
  list_notes user db' = note :: list_notes user db.
Proof.
  intros Hpk Hcreate. unfold create_note in Hcreate.
  pose proof (insert_note_primary_key on_overflow (User.email user)
                (NoteCreate.title payload) (NoteCreate.content payload)
                now db Hpk) as Hpk'.
  rewrite Hcreate in Hpk'. simpl in Hpk'.
  apply insert_note_Return in Hcreate as (t & c & _ & _ & Hnote & ->).
  destruct Hpk as [Hnodup Hbelow]. rewrite Forall_forall in Hbelow.
  assert (owned_by user note) as Hown.
  { rewrite Hnote. unfold owned_by. simpl. apply collate_eq_refl. }
  apply list_notes_unique; [by destruct Hpk'| |].
  - constructor; [apply StronglySorted_merge_sort; apply _|].
    apply Forall_forall. intros n [Hn _]%list_notes_elem_of.
    apply Hbelow in Hn. unfold id_desc. rewrite Hnote. simpl. lia.
  - simpl. rewrite filter_app, (filter_singleton_True _ _ []) by done.
    unfold list_notes. rewrite merge_sort_Permutation.
    apply Permutation_cons_append.
Qed.

(** X8. Under the primary key, a note that [create_note] returns is from
    then on the first entry of its owner's listing, ahead of the listing as
    it was, and is what the lookup by its id gives its owner; its id is the
    old counter, so no stored note had it. *)
Theorem create_note_then_list (payload : NoteCreate.t) (user : User.t)
    (now : Z) (db db' : Session) (note : Note.t) :
  primary_key db →
  create_note payload user now db = (Return note, db') →
  list_notes user db' = note :: list_notes user db
  ∧ owned_note (Note.id note) user db' = Some note
  ∧ Note.id note = notes_seq db
  ∧ (∀ n, n ∈ notes db → Note.id n ≠ Note.id note)
  ∧ primary_key db'.
Proof.
  intros Hpk Hcreate.
  pose proof (create_note_listed _ _ _ _ _ _ Hpk Hcreate) as Hlisted.
  unfold create_note in Hcreate.
  pose proof (insert_note_primary_key on_overflow (User.email user)
                (NoteCreate.title payload) (NoteCreate.content payload)
                now db Hpk) as Hpk'.
  rewrite Hcreate in Hpk'. simpl in Hpk'.
  apply insert_note_Return in Hcreate as (t & c & _ & _ & Hnote & ->).
  destruct Hpk as [Hnodup Hbelow]. rewrite Forall_forall in Hbelow.
  assert (Note.id note = notes_seq db) as Hid by (by rewrite Hnote).
  assert (owned_by user note) as Hown.
  { rewrite Hnote. unfold owned_by. simpl. apply collate_eq_refl. }
  assert (∀ n, n ∈ notes db → Note.id n ≠ Note.id note) as Hfresh.
  { intros n Hn%Hbelow. lia. }
  split_and!; [done| |done..].
  - assert (owned_note (Note.id note) user db = None) as Hnone.
    { apply owned_note_None. intros n Hn Hsame. by destruct (Hfresh n). }
    unfold owned_note in *. apply head_None in Hnone. simpl.
    rewrite filter_app, Hnone.
    by rewrite (filter_singleton_True _ _ []).
Qed.

(** X9. When [update_note] returns a note, the lookup by that id gives the
    caller the returned note, and sending the same update again returns the
    same note and leaves the session as it is. Under the primary key every
    user's listing is the listing as it was, in the same order, with the
    returned note in the place of the one with that id. *)
Theorem update_note_then_read (note_id : Z) (payload : NoteCreate.t)
    (user : User.t) (db db' : Session) (note' : Note.t) :
  update_note note_id payload user db = (Return note', db') →
  owned_note note_id user db' = Some note'
  ∧ update_note note_id payload user db' = (Return note', db')
  ∧ (primary_key db →
     ∀ viewer, list_notes viewer db'
               = (λ n, if bool_decide (Note.id n = note_id)
                       then note' else n) <$> list_notes viewer db).
Proof.
  unfold update_note.
  destruct (owned_note note_id user db) as [note|] eqn:Hq; [|done].
  intros (t & c & Ht & Hc & -> & ->)%update_row_Return.
  pose proof (owned_note_Some _ _ _ _ Hq) as (Hin & Hid & Hown).
  set (f := λ n, if bool_decide (Note.id n = Note.id note)
                 then with_text t c n else n).
  assert (∀ n, Note.id (f n) = Note.id n) as Hfid.
  { intros n. unfold f. by case_bool_decide. }
  assert (∀ n, Note.owner_email (f n) = Note.owner_email n) as Hfown.
  { intros n. unfold f. by case_bool_decide. }
  assert (owned_note note_id user (set_notes (f <$> notes db) db)
          = Some (with_text t c note)) as Hq'.
  { unfold owned_note in *. simpl.
    rewrite (filter_fmap_preserved _ f).
    - destruct (filter _ (notes db)) as [|n l]; simplify_eq/=.
      unfold f. by rewrite bool_decide_true.
    - intros n. unfold owned_by. by rewrite Hfid, Hfown. }
  split_and!; [done| |].
  - rewrite Hq'. unfold update_row. rewrite Ht, Hc. simpl.
    f_equal. unfold set_notes. simpl. f_equal.
    rewrite <-list_fmap_compose. apply list_fmap_ext.
    intros i n _. unfold compose, f. simpl.
    destruct (decide (Note.id n = Note.id note)) as [Hn|Hn].
    + rewrite !(bool_decide_true (Note.id n = Note.id note)) by done.
      done.
    + by rewrite !(bool_decide_false (Note.id n = Note.id note)).
  - intros [Hnodup _] viewer.
    assert (NoDup (Note.id <$> (f <$> notes db))) as Hnodup'.
    { rewrite <-list_fmap_compose. erewrite list_fmap_ext; [exact Hnodup|].
      intros i n _. unfold compose. by rewrite Hfid. }
    transitivity (f <$> list_notes viewer db).
    + apply list_notes_unique; [done| |].
      * eapply StronglySorted_fmap;
          [|apply StronglySorted_merge_sort; apply _].
        intros x y. unfold id_desc. by rewrite !Hfid.
      * simpl. rewrite (filter_fmap_preserved _ f).
        -- unfold list_notes. by rewrite merge_sort_Permutation.
        -- intros n. unfold owned_by. by rewrite Hfown.
    + apply list_fmap_ext. intros i n Hn%list_elem_of_lookup_2.
      apply list_notes_elem_of in Hn as [Hn _]. unfold f.
      rewrite Hid. case_bool_decide as Hsame; [|done].
      rewrite <-Hid in Hsame.
      by rewrite (same_id_same_row (notes db) n note Hnodup Hn Hin Hsame).
Qed.

Lemma filter_all {A} (P : A → Prop) `{!∀ x, Decision (P x)} (l : list A) :
  (∀ x, x ∈ l → P x) → filter P l = l.
Proof.
  induction l as [|a l IH]; intros Hall; [done|].
  rewrite filter_cons_True by (apply Hall; left).
  rewrite IH; [done|]. intros x Hx. apply Hall. by right.
Qed.

Lemma filter_other_ids (l : list Note.t) note :
  NoDup (Note.id <$> l) → note ∈ l →
  l ≡ₚ note :: filter (λ n, Note.id n ≠ Note.id note) l.
Proof.
  induction l as [|a l IH]; [by intros _ ?%elem_of_nil|].
  rewrite fmap_cons.
  intros [Ha Hl]%NoDup_cons [->|Hin]%elem_of_cons.
  - rewrite filter_cons_False by (intros ?; done).
    rewrite filter_all; [done|].
    intros n Hn Hsame. apply Ha.
    rewrite <-Hsame. by apply list_elem_of_fmap_2.
  - assert (Note.id a ≠ Note.id note) as Hne.
    { intros Hsame. apply Ha. rewrite Hsame. by apply list_elem_of_fmap_2. }
    rewrite filter_cons_True by done.
    rewrite (IH Hl Hin) at 1. apply perm_swap.
Qed.

(** X10. When [delete_note] returns, the answer is
    [{"message": "deleted"}], the notes table is the old one without the
    rows of that id, and users and both counters are as before; from then
    on the id is unknown to every caller: the lookup finds nothing and a
    further DELETE or PUT on it raises 404 and changes nothing. Under the
    primary key exactly one row went, a note of the caller, and every
    listing is the old listing without it. *)
Theorem delete_note_removes (note_id : Z) (user : User.t)
    (db db' : Session) (r : jobject) :
  delete_note note_id user db = (Return r, db') →
  r = [("message", JStr "deleted")]
  ∧ users db' = users db
  ∧ users_seq db' = users_seq db
  ∧ notes_seq db' = notes_seq db
  ∧ notes db' = filter (λ n, Note.id n ≠ note_id) (notes db)
  ∧ (∀ who, owned_note note_id who db' = None)
  ∧ (∀ who, delete_note note_id who db'
            = (Raise (HTTPException 404 "Note not found"), db'))
  ∧ (∀ who payload, update_note note_id payload who db'
                    = (Raise (HTTPException 404 "Note not found"), db'))
  ∧ (primary_key db →
     primary_key db'
     ∧ (∃ note, owned_by user note ∧ Note.id note = note_id
                ∧ notes db ≡ₚ note :: notes db')
     ∧ ∀ viewer, list_notes viewer db'
                 = filter (λ n, Note.id n ≠ note_id) (list_notes viewer db)).
Proof.
  unfold delete_note.
  destruct (owned_note note_id user db) as [note|] eqn:Hq; [|done].
  intros [= <- <-].
  apply owned_note_Some in Hq as (Hin & Hid & Hown).
  assert (∀ who, owned_note note_id who (delete_row note db) = None) as Hgone.
  { intros who. apply owned_note_None. simpl.
    intros n [Hne _]%list_elem_of_filter Hsame. destruct Hne. congruence. }
  split_and!; try done.
  - simpl. by rewrite Hid.
  - intros who. unfold delete_note. by rewrite Hgone.
  - intros who payload. unfold update_note. by rewrite Hgone.
  - intros Hpk. pose proof (delete_row_primary_key note db Hpk) as Hpk'.
    destruct Hpk as [Hnodup _]. split_and!; [done| |].
    + exists note. split_and!; [done..|]. simpl.
      by apply filter_other_ids.
    + intros viewer. apply list_notes_unique; [by destruct Hpk'| |].
      * apply StronglySorted_filter, StronglySorted_merge_sort; apply _.
      * simpl. unfold list_notes. rewrite merge_sort_Permutation.
        rewrite !list_filter_filter, Hid.
        erewrite list_filter_iff; [done|]. intros n. simpl.
        split; intros [??]; by split.
Qed.

(** X11. Two users whose addresses no stored owner address equals at once
    do not see each other's changes: whatever note the one creates, and,
    under the primary key, whatever id they update or delete, the other's
    listing stays what it was. *)
Theorem other_users_notes_untouched (actor viewer : User.t)
    (db : Session) :
  (∀ owner, collate_eq owner (User.email actor) = true →
            collate_eq owner (User.email viewer) = true → False) →
  (∀ payload now,
     list_notes viewer (create_note payload actor now db).2
     = list_notes viewer db)
  ∧ (primary_key db →
     (∀ note_id payload,
        list_notes viewer (update_note note_id payload actor db).2
        = list_notes viewer db)
     ∧ (∀ note_id,
          list_notes viewer (delete_note note_id actor db).2
          = list_notes viewer db)).
Proof.
  intros Hapart. split.
  - intros payload now. unfold create_note, insert_note.
    destruct (store_string on_overflow Note.title_width
                (NoteCreate.title payload)) as [t|];
      destruct (store_string on_overflow Note.content_width
                  (NoteCreate.content payload)) as [c|];
      try done.
    unfold list_notes. simpl. rewrite filter_app.
    rewrite (filter_singleton_False _ _ []), app_nil_r; [done|].
    unfold owned_by. simpl. intros Hown.
    by apply (Hapart (User.email actor)).
  - intros [Hnodup _].
    assert (∀ note n, note ∈ notes db → owned_by actor note →
              n ∈ notes db → owned_by viewer n →
              Note.id n ≠ Note.id note) as Hother.
    { intros note n Hnote Hact Hn Hview Hsame.
      rewrite (same_id_same_row (notes db) n note) in Hview by done.
      by apply (Hapart (Note.owner_email note)). }
    split.
    + intros note_id payload. unfold update_note.
      destruct (owned_note note_id actor db) as [note|] eqn:Hq; [|done].
      apply owned_note_Some in Hq as (Hin & _ & Hown).
      unfold update_row.
      destruct (store_string on_overflow Note.title_width
                  (NoteCreate.title payload)) as [t|];
        destruct (store_string on_overflow Note.content_width
                    (NoteCreate.content payload)) as [c|];
        try done.
      unfold list_notes. simpl. f_equal.
      rewrite filter_fmap_preserved
        by (intros n; unfold owned_by; by case_bool_decide).
      rewrite <-(list_fmap_id (filter (owned_by viewer) (notes db))) at 2.
      apply list_fmap_ext. intros i n Hn%list_elem_of_lookup_2.
      apply list_elem_of_filter in Hn as [Hview Hn].
      rewrite bool_decide_false; [done|]. by apply Hother.
    + intros note_id. unfold delete_note.
      destruct (owned_note note_id actor db) as [note|] eqn:Hq; [|done].
      apply owned_note_Some in Hq as (Hin & _ & Hown).
      unfold list_notes. simpl. f_equal.
      rewrite list_filter_filter. apply filter_ext_in.
      intros n Hn. split; [by intros [? _]|].
      intros Hview. split; [done|]. by apply Hother.
Qed.

(** *** What every run of requests keeps *)

Lemma consistent_empty : consistent empty_db.
Proof.
  split_and!.
  - apply primary_key_empty.
  - split; simpl; constructor.
  - intros i j u v _ Hi. simpl in Hi. by rewrite lookup_nil in Hi.
  - intros n Hn. by apply elem_of_nil in Hn.
  - intros u Hu. by apply elem_of_nil in Hu.
Qed.

Lemma require_user_Return creds now db user :
  require_user creds now db = Return user → user ∈ users db.
Proof.
  unfold require_user.
  destruct (decode_token creds now) as [email|]; [simpl|done].
  destruct (user_by_email email db) as [u|] eqn:Hu; [|done].
  intros [= <-]. by apply user_by_email_Some in Hu as [? _].
Qed.

Lemma insert_user_consistent raw email hash now db :
  EmailStr raw = Some email → user_by_email email db = None →
  consistent db → consistent (insert_user email hash now db).
Proof.
  intros Hraw Hnone (Hpk & [Hnodup Hbelow] & Hdist & Hown & Hval).
  rewrite user_by_email_None in Hnone.
  split_and!.
  - exact Hpk.
  - split; simpl.
    + rewrite fmap_app. apply NoDup_app.
      split; [done|]. split; [|apply NoDup_singleton].
      intros k Hk Hk'. apply list_elem_of_singleton in Hk'. simpl in Hk'.
      apply list_elem_of_fmap in Hk as (u & Hid & Hu).
      rewrite Forall_forall in Hbelow. apply Hbelow in Hu. lia.
    + apply Forall_app. split.
      * eapply Forall_impl; [done|]. simpl. intros u ?. lia.
      * apply Forall_singleton. simpl. lia.
  - intros i j u v Hij Hi Hj. simpl in Hi, Hj.
    apply lookup_app_Some in Hj as [Hj|[Hlen Hj]].
    + apply lookup_app_Some in Hi as [Hi|[Hlen _]]; [by eapply Hdist|].
      apply lookup_lt_Some in Hj. lia.
    + apply list_lookup_singleton_Some in Hj as [Hj <-]. simpl.
      apply lookup_app_Some in Hi as [Hi|[Hlen' _]]; [|lia].
      apply Hnone. by eapply list_elem_of_lookup_2.
  - intros n Hn. destruct (Hown n Hn) as (u & Hu & Heq).
    exists u. split; [|done]. simpl. apply elem_of_app. by left.
  - intros u Hu. simpl in Hu.
    apply elem_of_app in Hu as [Hu|Hu%list_elem_of_singleton];
      [by apply Hval|].
    subst u. by exists raw.
Qed.

Lemma insert_note_consistent user title content now db :
  user ∈ users db → consistent db →
  consistent
    (insert_note on_overflow (User.email user) title content now db).2.
Proof.
  intros Huser Hcons.
  pose proof (insert_note_primary_key on_overflow (User.email user) title
                content now db (proj1 Hcons)) as Hpk.
  unfold insert_note in *.
  destruct (store_string on_overflow Note.title_width title) as [t|];
    destruct (store_string on_overflow Note.content_width content) as [c|];
    try exact Hcons.
  destruct Hcons as (_ & Hkey & Hdist & Hown & Hval).
  split_and!; [exact Hpk|exact Hkey|exact Hdist| |exact Hval].
  intros n Hn. simpl in Hn.
  apply elem_of_app in Hn as [Hn|Hn%list_elem_of_singleton];
    [by apply Hown|].
  subst n. by exists user.
Qed.

Lemma update_row_consistent note title content db :
  consistent db →
  consistent (update_row on_overflow note title content db).2.
Proof.
  intros Hcons.
  pose proof (update_row_primary_key on_overflow note title content db
                (proj1 Hcons)) as Hpk.
  unfold update_row in *.
  destruct (store_string on_overflow Note.title_width title) as [t|];
    destruct (store_string on_overflow Note.content_width content) as [c|];
    try exact Hcons.
  destruct Hcons as (_ & Hkey & Hdist & Hown & Hval).
  split_and!; [exact Hpk|exact Hkey|exact Hdist| |exact Hval].
  intros n' Hn'. simpl in Hn'.
  apply list_elem_of_fmap in Hn' as (n & -> & Hn).
  destruct (Hown n Hn) as (u & Hu & Heq). exists u. split; [done|].
  by case_bool_decide.
Qed.

Lemma delete_row_consistent note db :
  consistent db → consistent (delete_row note db).
Proof.
  intros (Hpk & Hkey & Hdist & Hown & Hval).
  split_and!;
    [by apply delete_row_primary_key|exact Hkey|exact Hdist| |exact Hval].
  intros n Hn. simpl in Hn.
  apply list_elem_of_filter in Hn as [_ Hn]. by apply Hown.
Qed.

Lemma handle_consistent r now db :
  consistent db → consistent (handle r now db).
Proof.
  intros Hcons.
  destruct r as [email password salt|email password|creds
                |creds title content|creds note_id title content
                |creds note_id]; simpl; try done.
  - unfold post_register, validate_RegisterRequest.
    destruct (EmailStr email) as [address|] eqn:Hraw; [|done].
    case_bool_decide; [|done]. unfold register. simpl.
    destruct (user_by_email address db) eqn:Hu; [done|]. simpl.
    by eapply insert_user_consistent.
  - unfold post_notes.
    destruct (require_user creds now db) as [user|] eqn:Hreq; [|done].
    simpl. unfold create_note. apply insert_note_consistent; [|done].
    by eapply require_user_Return.
  - unfold put_notes.
    destruct (require_user creds now db) as [user|]; [|done].
    simpl. unfold update_note.
    destruct (owned_note note_id user db) as [note|]; [|done].
    by apply update_row_consistent.
  - unfold delete_notes.
    destruct (require_user creds now db) as [user|]; [|done].
    unfold delete_note.
    destruct (owned_note note_id user db) as [note|]; [|done].
    by apply delete_row_consistent.
Qed.

(** X12. Every run of requests keeps the session consistent: note ids
    and user ids stay primary keys drawn from their counters, no stored
    address equals (for the store) one stored before it, so the unique
    index on [users.email] is never violated, every note's owner is a
    stored user's address, and every stored address passed [EmailStr]. *)
Theorem run_consistent (requests : list (request * Z)) (db : Session) :
  consistent db → consistent (run requests db).
Proof.
  unfold run. revert db.
  induction requests as [|r requests IH]; intros db Hcons; simpl; [done|].
  by apply IH, handle_consistent.
Qed.



Lemma handle_grows r now db :
  users db `prefix_of` users (handle r now db)
  ∧ notes_seq db ≤ notes_seq (handle r now db)
  ∧ (users_seq db ≤ users_seq (handle r now db)).
Proof.
  destruct r as [email password salt|email password|creds
                |creds title content|creds note_id title content
                |creds note_id]; simpl; try (split_and!; [done|lia..]).
  - unfold post_register, validate_RegisterRequest.
    destruct (EmailStr email) as [address|];
      [|split_and!; [done|simpl; lia..]].
    case_bool_decide; [|split_and!; [done|simpl; lia..]].
    unfold register. simpl.
    destruct (user_by_email address db);
      [split_and!; [done|simpl; lia..]|].
    simpl. split_and!; [by apply prefix_app_r|lia..].
  - unfold post_notes.
    destruct (require_user creds now db) as [user|];
      [|split_and!; [done|simpl; lia..]].
    simpl. unfold create_note, insert_note. simpl.
    destruct (store_string on_overflow Note.title_width title) as [t|];
      destruct (store_string on_overflow Note.content_width content)
        as [c|];
      split_and!; simpl; try done; lia.
  - unfold put_notes.
    destruct (require_user creds now db) as [user|];
      [|split_and!; [done|simpl; lia..]].
    simpl. unfold update_note.
    destruct (owned_note note_id user db) as [note|];
      [|split_and!; [done|simpl; lia..]].
    unfold update_row. simpl.
    destruct (store_string on_overflow Note.title_width title) as [t|];
      destruct (store_string on_overflow Note.content_width content)
        as [c|];
      split_and!; simpl; try done; lia.
  - unfold delete_notes.
    destruct (require_user creds now db) as [user|];
      [|split_and!; [done|simpl; lia..]].
    unfold delete_note.
    destruct (owned_note note_id user db) as [note|];
      split_and!; simpl; try done; lia.
Qed.

(** X14. No run of requests removes or alters a stored user or takes a
    counter back: the users table after the run begins with the users
    table before it, and both AUTO_INCREMENT counters are at least what
    they were. *)
Theorem run_users_grow (requests : list (request * Z)) (db : Session) :
  users db `prefix_of` users (run requests db)
  ∧ notes_seq db ≤ notes_seq (run requests db)
  ∧ users_seq db ≤ users_seq (run requests db).
Proof.
  unfold run. revert db.
  induction requests as [|r requests IH]; intros db; simpl;
    [split_and!; [done|lia..]|].
  destruct (handle_grows r.1 r.2 db) as (Hu & Hn & Hs).
  destruct (IH (handle r.1 r.2 db)) as (Hu' & Hn' & Hs').
  split_and!; [by etransitivity|lia..].
Qed.

(** *** From registration to the first note *)

(** X15. The four routes in a row. For an address that [EmailStr] accepts
    and that is not registered, a password of 6 to 100 characters and a
    text within the column widths: POST /register answers "registered",
    POST /login on the resulting session returns a bearer token, POST
    /notes with that token returns a note with the caller's address as
    owner and the text as sent, and GET /notes with the token then lists
    that note first; the token serves up to 60 minutes after login. *)
Theorem register_login_create_list
    (email password salt title content address : string)
    (t0 t1 t2 t3 : Z) (db : Session) :
  EmailStr email = Some address →
  address ≠ EmptyString →
  (6 ≤ String.length password ≤ 100)%nat →
  user_by_email address db = None →
  primary_key db →
  (String.length title ≤ Note.title_width)%nat →
  (String.length content ≤ Note.content_width)%nat →
  t2 ≤ t1 + 60 * ACCESS_TOKEN_EXPIRE_MINUTES →
  t3 ≤ t1 + 60 * ACCESS_TOKEN_EXPIRE_MINUTES →
  let user :=
    User.mk (users_seq db) address (hash_password salt password) t0 in
  let note := Note.mk (notes_seq db) address title content t2 in
  ∃ db1 tok db2,
    post_register email password salt t0 db
    = (Return [("message", JStr "registered")], db1)
    ∧ post_login email password t1 db1 = Return tok
    ∧ TokenResponse.token_type tok = "bearer"
    ∧ post_notes (TokenResponse.access_token tok) title content t2 db1
      = (Return note, db2)
    ∧ get_notes (TokenResponse.access_token tok) t3 db2
      = Return (note_out <$> note :: list_notes user db).
Proof.
  intros Hraw Hne Hlen Hfresh Hpk Htitle Hcontent Ht2 Ht3 user note.
  set (db1 := insert_user address (hash_password salt password) t0 db).
  set (tok := TokenResponse.mk
                (create_access_token address ACCESS_TOKEN_EXPIRE_MINUTES t1)
                "bearer").
  assert (user_by_email address db1 = Some user) as Huser.
  { apply user_by_email_insert_fresh. by apply user_by_email_None. }
  assert (∀ now db', now ≤ t1 + 60 * ACCESS_TOKEN_EXPIRE_MINUTES →
            users db' = users db1 →
            require_user (TokenResponse.access_token tok) now db'
            = Return user) as Hreq.
  { intros now db' Hnow Husers. unfold require_user. simpl.
    rewrite decode_token_issued.
    rewrite bool_decide_false by lia. rewrite bool_decide_false by done.
    simpl. unfold user_by_email in *. by rewrite Husers, Huser. }
  assert (create_note (NoteCreate.mk title content) user t2 db1
          = (Return note,
             (insert_note on_overflow address title content t2 db1).2))
    as Hcreate.
  { unfold create_note, insert_note. simpl.
    by rewrite !store_string_fits by done. }
  exists db1, tok, (insert_note on_overflow address title content t2 db1).2.
  split_and!.
  - unfold post_register, validate_RegisterRequest.
    rewrite Hraw, bool_decide_true by done. unfold register. simpl.
    by rewrite Hfresh.
  - unfold post_login, validate_LoginRequest. rewrite Hraw. simpl.
    unfold login. simpl. rewrite Huser. simpl.
    unfold verify_password, hash_password, pwd_context_verify,
      pwd_context_hash.
    rewrite phc_decode_encode. simpl. by rewrite bool_decide_true.
  - done.
  - unfold post_notes. rewrite Hreq by done. simpl. exact Hcreate.
  - unfold get_notes. rewrite Hreq; [|done|].
    + simpl. do 2 f_equal.
      assert (primary_key db1) as Hpk1 by exact Hpk.
      by rewrite (create_note_listed _ _ _ _ _ _ Hpk1 Hcreate).
    + unfold insert_note. simpl.
      by rewrite !store_string_fits by done.
Qed.

End Service.

(** ** Loading the settings *)

Lemma must_env_cases (env : environ) (key : string) :
  (∃ val, env key = Some val ∧ val ≠ EmptyString
          ∧ must_env env key = Loaded val)
  ∨ (¬ (∃ val, env key = Some val ∧ val ≠ EmptyString)
     ∧ must_env env key
       = RuntimeError
           ("ENV '" +:+ key +:+ "' tidak ditemukan / kosong. Cek file .env")).
Proof.
  unfold must_env. destruct (env key) as [val|] eqn:Hkey.
  - case_bool_decide as Hval.
    + right. split; [|done]. intros (v & [= <-] & Hv). done.
    + left. by exists val.
  - right. split; [|done]. by intros (v & [=] & _).
Qed.

(** X16. Loading the module either yields settings or stops at the first
    of JWT_SECRET, DB_USER, DB_PASSWORD, DB_NAME (in this order) that is
    unset or empty, with the [RuntimeError] that names it. When it yields
    settings, these four are the values of the environment and are not
    empty, and DB_HOST and DB_PORT are the environment's values whenever
    they are set, even to the empty string, and "localhost" and "3306"
    only when they are unset. *)
Theorem load_settings_outcomes (env : environ) :
  let is_set key := ∃ val, env key = Some val ∧ val ≠ EmptyString in
  (∃ s, load_settings env = Loaded s
        ∧ env "JWT_SECRET" = Some (Settings.SECRET_KEY s)
        ∧ env "DB_USER" = Some (Settings.DB_USER s)
        ∧ env "DB_PASSWORD" = Some (Settings.DB_PASSWORD s)
        ∧ env "DB_NAME" = Some (Settings.DB_NAME s)
        ∧ Forall is_set ["JWT_SECRET"; "DB_USER"; "DB_PASSWORD"; "DB_NAME"]
        ∧ Settings.DB_HOST s = default "localhost" (env "DB_HOST")
        ∧ Settings.DB_PORT s = default "3306" (env "DB_PORT"))
  ∨ (∃ before key after,
        ["JWT_SECRET"; "DB_USER"; "DB_PASSWORD"; "DB_NAME"]
        = before ++ key :: after
        ∧ Forall is_set before
        ∧ ¬ is_set key
        ∧ load_settings env
          = RuntimeError
              ("ENV '" +:+ key
               +:+ "' tidak ditemukan / kosong. Cek file .env")).
Proof.
  intros is_set. unfold load_settings.
  destruct (must_env_cases env "JWT_SECRET")
    as [(v1 & H1 & N1 & ->)|[N1 ->]];
    [|right; exists [], "JWT_SECRET", ["DB_USER"; "DB_PASSWORD"; "DB_NAME"];
      by split_and!].
  assert (is_set "JWT_SECRET") as S1 by (by exists v1).
  destruct (must_env_cases env "DB_USER")
    as [(v2 & H2 & N2 & ->)|[N2 ->]];
    [|right; exists ["JWT_SECRET"], "DB_USER", ["DB_PASSWORD"; "DB_NAME"];
      split_and!; [done|by repeat constructor|done..]].
  assert (is_set "DB_USER") as S2 by (by exists v2).
  destruct (must_env_cases env "DB_PASSWORD")
    as [(v3 & H3 & N3 & ->)|[N3 ->]];
    [|right; exists ["JWT_SECRET"; "DB_USER"], "DB_PASSWORD", ["DB_NAME"];
      split_and!; [done|by repeat constructor|done..]].
  assert (is_set "DB_PASSWORD") as S3 by (by exists v3).
  destruct (must_env_cases env "DB_NAME")
    as [(v4 & H4 & N4 & ->)|[N4 ->]];
    [|right; exists ["JWT_SECRET"; "DB_USER"; "DB_PASSWORD"], "DB_NAME", [];
      split_and!; [done|by repeat constructor|done..]].
  assert (is_set "DB_NAME") as S4 by (by exists v4).
  left. eexists. split; [reflexivity|]. simpl.
  split_and!; try done. by repeat constructor.
Qed.

(** ** The executable instance meets what the section assumes *)

Lemma undigits_digits p : Concrete.undigits (Concrete.digits p) = Some p.
Proof. induction p as [p IH|p IH|]; simpl; by rewrite ?IH. Qed.

Lemma digits_dotfree p : dotfree (Concrete.digits p) = true.
Proof. induction p; simpl; auto. Qed.

Lemma unpickle_pickle {A} `{Countable A} (a : A) :
  Concrete.unpickle (Concrete.pickle a) = Some a.
Proof.
  unfold Concrete.unpickle, Concrete.pickle.
  rewrite undigits_digits. simpl. apply decode_encode.
Qed.


Lemma concrete_json_loads_dumps o :
  Concrete.json_loads (Concrete.json_dumps o) = Some o.
Proof. apply unpickle_pickle. Qed.

Lemma concrete_base64url_decode_encode s :
  Concrete.base64url_decode (Concrete.base64url_encode s) = Some s.
Proof. apply unpickle_pickle. Qed.

Lemma concrete_base64url_dotfree s :
  dotfree (Concrete.base64url_encode s) = true.
Proof. apply digits_dotfree. Qed.

Lemma concrete_phc_decode_encode salt digest :
  Concrete.phc_decode (Concrete.phc_encode salt digest) = Some (salt, digest).
Proof. apply unpickle_pickle. Qed.


Lemma concrete_collate_eq_refl e : Concrete.collate_eq e e = true.
Proof. unfold Concrete.collate_eq. by apply bool_decide_eq_true. Qed.

(** ** Over-long text *)

(** C9, as amended. The body schema of a note puts no bound on [title] or
    [content]: a title longer than 255 or a content longer than 2000
    characters passes validation as it is and is handed to the store. The
    column widths are enforced by the store alone, so the request never
    ends in a validation error: either the store refuses the INSERT or
    UPDATE, which raises [DataError] (answered 500) and leaves the session
    as it was, or the row is written with the values as the store cut them.
    Where the store refuses an over-long value, the first is the case. *)
Theorem overlong_text_reaches_store (on_overflow : overflow)
    (collate_eq : string → string → bool) (title content : string) :
  (Note.title_width < String.length title
   ∨ Note.content_width < String.length content)%nat →
  let payload := NoteCreate.mk title content in
  validate_NoteCreate title content = Return payload
  ∧ (∀ user now db,
       create_note on_overflow payload user now db = (Raise DataError, db)
       ∨ ∃ note,
           create_note on_overflow payload user now db
           = (Return note,
              {| users := users db; notes := notes db ++ [note];
                 users_seq := users_seq db; notes_seq := notes_seq db + 1 |})
           ∧ store_string on_overflow Note.title_width title
             = Return (Note.title note)
           ∧ store_string on_overflow Note.content_width content
             = Return (Note.content note))
  ∧ (∀ note_id user db,
       is_Some (owned_note collate_eq note_id user db) →
       update_note on_overflow collate_eq note_id payload user db
       = (Raise DataError, db)
       ∨ ∃ note',
           (update_note on_overflow collate_eq note_id payload user db).1
           = Return note'
           ∧ store_string on_overflow Note.title_width title
             = Return (Note.title note')
           ∧ store_string on_overflow Note.content_width content
             = Return (Note.content note'))
  ∧ (((Note.title_width < String.length title)%nat
      ∧ on_overflow Note.title_width title = None)
     ∨ ((Note.content_width < String.length content)%nat
        ∧ on_overflow Note.content_width content = None) →
     (∀ user now db,
        create_note on_overflow payload user now db = (Raise DataError, db))
     ∧ (∀ note_id user db,
          is_Some (owned_note collate_eq note_id user db) →
          update_note on_overflow collate_eq note_id payload user db
          = (Raise DataError, db))
     ∧ status_of 201 (Raise DataError : result Note.t) = 500).
Proof.
  intros _ payload.
  assert (∀ A (f : string → string → A) (g : exn → A),
    match store_string on_overflow Note.title_width title,
          store_string on_overflow Note.content_width content with
    | Return t, Return c => f t c
    | Raise e, _ => g e
    | _, Raise e => g e
    end = g DataError
    ∨ ∃ t c, store_string on_overflow Note.title_width title = Return t
             ∧ store_string on_overflow Note.content_width content = Return c)
    as Hcases.
  { intros A f g.
    destruct (store_string_cases on_overflow Note.title_width title)
      as [->|[t ->]]; [by left|].
    destruct (store_string_cases on_overflow Note.content_width content)
      as [->|[c ->]]; [by left|].
    right. by exists t, c. }
  split_and!; [done|..].
  - intros user now db. unfold create_note, insert_note. simpl.
    destruct (Hcases (result Note.t * Session)%type
                (λ t c,
                   (Return (Note.mk (notes_seq db) (User.email user) t c now),
                         {| users := users db;
                            notes := notes db
                                     ++ [Note.mk (notes_seq db)
                                           (User.email user) t c now];
                            users_seq := users_seq db;
                            notes_seq := notes_seq db + 1 |}))
                (λ e, (Raise e, db))) as [Hrefused|(t & c & Ht & Hc)].
    + left. exact Hrefused.
    + right. rewrite Ht, Hc. by eexists.
  - intros note_id user db [note Hq]. unfold update_note, update_row.
    rewrite Hq. simpl.
    destruct (store_string_cases on_overflow Note.title_width title)
      as [->|[t ->]]; [by left|].
    destruct (store_string_cases on_overflow Note.content_width content)
      as [->|[c ->]]; [by left|].
    right. by eexists.
  - intros Hrefuse.
    assert (∀ A (f : string → string → A) (g : exn → A),
      match store_string on_overflow Note.title_width title,
            store_string on_overflow Note.content_width content with
      | Return t, Return c => f t c
      | Raise e, _ => g e
      | _, Raise e => g e
      end = g DataError) as Hrefused.
    { intros A f g. unfold store_string at 1 2.
      destruct Hrefuse as [[Hlen Hnone]|[Hlen Hnone]].
      - rewrite (bool_decide_false (_ ≤ Note.title_width)%nat) by lia.
        by rewrite Hnone.
      - rewrite (bool_decide_false (_ ≤ Note.content_width)%nat) by lia.
        rewrite Hnone.
        case_bool_decide; [done|]. by destruct (on_overflow _ title). }
    split_and!; [| |done].
    + intros user now db. unfold create_note, insert_note. simpl.
      by rewrite Hrefused.
    + intros note_id user db [note Hq]. unfold update_note, update_row.
      rewrite Hq. simpl. by rewrite Hrefused.
Qed.

(** ** The theorems at work on the sample data *)

(** Case analysis on the rows of a concrete table. *)
Ltac each_row H :=
  repeat (apply elem_of_cons in H as [->|H]);
  [..|by apply elem_of_nil in H].

(** Bob asks for note 1: on an empty table, and on the sample table, where
    note 1 is Alice's. *)
Lemma foreign_note_not_found_witness :
  let payload := (NoteCreate.mk "mine" "now") in
  update_note Concrete.STRICT Concrete.collate_eq 1 payload Sample.bob empty_db
    = (Raise (HTTPException 404 "Note not found"), empty_db)
  ∧ update_note Concrete.STRICT Concrete.collate_eq 1 payload Sample.bob
      Sample.db
    = (Raise (HTTPException 404 "Note not found"), Sample.db)
  ∧ delete_note Concrete.collate_eq 1 Sample.bob empty_db
    = (Raise (HTTPException 404 "Note not found"), empty_db)
  ∧ delete_note Concrete.collate_eq 1 Sample.bob Sample.db
    = (Raise (HTTPException 404 "Note not found"), Sample.db)
  ∧ Sample.note1 ∈ notes Sample.db.
Proof.
  intros payload.
  apply (foreign_note_not_found Concrete.STRICT Concrete.collate_eq 1 payload
           Sample.bob empty_db Sample.db Sample.note1).
  - intros n Hn. by apply elem_of_nil in Hn.
  - split; apply (bool_decide_unpack _); vm_compute; exact I.
  - apply (bool_decide_unpack _). vm_compute. exact I.
  - reflexivity.
  - vm_compute. discriminate.
Defined.

(** Carol registers on the sample session, twice. *)
Lemma register_once_witness :
  let payload := (RegisterRequest.mk "carol@example.com" "secret3") in
  let again := (RegisterRequest.mk "carol@example.com" "another") in
  let db' :=
    (register Concrete.collate_eq Concrete.argon2 Concrete.phc_encode
       payload "salt" 100 Sample.db).2 in
  status_of 201
    (register Concrete.collate_eq Concrete.argon2 Concrete.phc_encode
       payload "salt" 100 Sample.db).1 = 201
  ∧ register Concrete.collate_eq Concrete.argon2 Concrete.phc_encode
      again "pepper" 200 db'
    = (Raise (HTTPException 409 "Email already registered"), db').
Proof.
  intros payload again db'.
  assert (∀ u, u ∈ users Sample.db →
            Concrete.collate_eq (User.email u) (RegisterRequest.email payload)
            = false) as Hfresh.
  { intros u Hu. each_row Hu; vm_compute; reflexivity. }
  destruct (register_once Concrete.collate_eq Concrete.argon2
              Concrete.phc_encode concrete_collate_eq_refl
              payload again "salt" "pepper" 100 200 Sample.db
              Hfresh eq_refl)
    as (_ & Hstatus & _ & _ & Hagain).
  split; [exact Hstatus|exact Hagain].
Defined.



(** A string without a dot, and Alice's token 4000 seconds after issue. *)
Lemma decode_token_rejects_witness :
  decode_token Concrete.SECRET_KEY Concrete.json_loads Concrete.base64url_decode Concrete.sign
    "garbled" 5000
  = Raise (HTTPException 401 "Invalid or expired token")
  ∧ decode_token Concrete.SECRET_KEY Concrete.json_loads Concrete.base64url_decode Concrete.sign
      (create_access_token Concrete.SECRET_KEY Concrete.json_dumps Concrete.base64url_encode Concrete.sign
         "alice@example.com" ACCESS_TOKEN_EXPIRE_MINUTES 1000) 5000
    = Raise (HTTPException 401 "Invalid or expired token").
Proof.
  destruct (decode_token_rejects Concrete.SECRET_KEY Concrete.json_dumps
              Concrete.json_loads Concrete.base64url_encode
              Concrete.base64url_decode Concrete.sign
              concrete_json_loads_dumps concrete_base64url_decode_encode
              concrete_base64url_dotfree 5000) as [Hbad Hlate].
  split.
  - apply Hbad. left. vm_compute. reflexivity.
  - apply Hlate. vm_compute. reflexivity.
Defined.



(** Alice rewrites her note 1: Bob's note 2 and her note 3 stay as they
    were. *)
Lemma update_note_frame_witness :
  let payload := (NoteCreate.mk "t2" "c2") in
  let note' := Note.mk 1 "alice@example.com" "t2" "c2" 10 in
  let db' := set_notes [note'; Sample.note2; Sample.note3] Sample.db in
  update_note Concrete.STRICT Concrete.collate_eq 1 payload Sample.alice
    Sample.db
    = (Return note', db')
  ∧ users db' = users Sample.db
  ∧ length (notes db') = length (notes Sample.db).
Proof.
  intros payload note' db'.
  assert (update_note Concrete.STRICT Concrete.collate_eq 1 payload
            Sample.alice Sample.db = (Return note', db')) as Hupdate
    by (vm_compute; reflexivity).
  destruct (update_note_frame Concrete.STRICT Concrete.collate_eq 1 payload
              Sample.alice Sample.db db' note' Hupdate)
    as (note & _ & _ & _ & _ & _ & _ & Husers & _ & _ & Hlength & _).
  split_and!; [exact Hupdate|exact Husers|exact Hlength].
Defined.

(** Alice posts a note with her token: the note is hers. *)
Lemma post_notes_owner_witness :
  let creds :=
    create_access_token Concrete.SECRET_KEY Concrete.json_dumps Concrete.base64url_encode Concrete.sign
      "alice@example.com" ACCESS_TOKEN_EXPIRE_MINUTES 1000 in
  let note := Note.mk 4 "alice@example.com" "new" "text" 2000 in
  let db' :=
    {| users := users Sample.db; notes := notes Sample.db ++ [note];
       users_seq := 3; notes_seq := 5 |} in
  post_notes Concrete.SECRET_KEY Concrete.STRICT Concrete.collate_eq
    Concrete.json_loads Concrete.base64url_decode Concrete.sign creds "new" "text" 2000 Sample.db
    = (Return note, db')
  ∧ ∃ user,
      require_user Concrete.SECRET_KEY Concrete.collate_eq
        Concrete.json_loads Concrete.base64url_decode Concrete.sign creds 2000 Sample.db = Return user
      ∧ Note.owner_email note = User.email user.
Proof.
  intros creds note db'.
  assert (post_notes Concrete.SECRET_KEY Concrete.STRICT Concrete.collate_eq
            Concrete.json_loads Concrete.base64url_decode Concrete.sign creds "new" "text" 2000
            Sample.db = (Return note, db')) as Hpost
    by (vm_compute; reflexivity).
  destruct (post_notes_owner Concrete.SECRET_KEY Concrete.STRICT
              Concrete.collate_eq Concrete.json_loads Concrete.base64url_decode Concrete.sign
              creds "new" "text" 2000 Sample.db db' note Hpost)
    as (subject & user & _ & _ & Huser & Howner & _).
  split; [exact Hpost|]. exists user. split; [exact Huser|exact Howner].
Defined.

(** Alice posts 2001 characters of content with a valid token. Validation
    lets the body through; in strict mode the store refuses the INSERT (a
    500, not a 422), in non-strict mode the note is stored with 2000
    characters of content. *)
Lemma overlong_content_not_a_validation_error :
  let creds :=
    create_access_token Concrete.SECRET_KEY Concrete.json_dumps Concrete.base64url_encode Concrete.sign
      "alice@example.com" ACCESS_TOKEN_EXPIRE_MINUTES 1000 in
  let cut := Note.mk 4 "alice@example.com" "t"
               (truncate 2000 Sample.long_text) 2000 in
  String.length Sample.long_text = 2001%nat
  ∧ validate_NoteCreate "t" Sample.long_text ≠ Raise RequestValidationError
  ∧ post_notes Concrete.SECRET_KEY Concrete.STRICT Concrete.collate_eq
      Concrete.json_loads Concrete.base64url_decode Concrete.sign creds "t" Sample.long_text 2000
      Sample.db
    = (Raise DataError, Sample.db)
  ∧ post_notes Concrete.SECRET_KEY Concrete.NON_STRICT Concrete.collate_eq
      Concrete.json_loads Concrete.base64url_decode Concrete.sign creds "t" Sample.long_text 2000
      Sample.db
    = (Return cut,
       {| users := users Sample.db; notes := notes Sample.db ++ [cut];
          users_seq := 3; notes_seq := 5 |})
  ∧ Note.content cut ≠ Sample.long_text.
Proof.
  intros creds cut. split_and!.
  - vm_compute. reflexivity.
  - discriminate.
  - vm_compute. reflexivity.
  - vm_compute. reflexivity.
  - intros Heq. apply (f_equal String.length) in Heq.
    vm_compute in Heq. discriminate.
Qed.

Lemma overlong_text_reaches_store_witness :
  validate_NoteCreate "t" Sample.long_text
    = Return (NoteCreate.mk "t" Sample.long_text)
  ∧ create_note Concrete.STRICT
      (NoteCreate.mk "t" Sample.long_text)
      Sample.alice 2000 Sample.db
    = (Raise DataError, Sample.db)
  ∧ update_note Concrete.STRICT Concrete.collate_eq 1
      (NoteCreate.mk "t" Sample.long_text)
      Sample.alice Sample.db
    = (Raise DataError, Sample.db).
Proof.
  assert (Note.content_width < String.length Sample.long_text)%nat as Hlong.
  { apply Nat.ltb_lt. vm_compute. reflexivity. }
  assert (Concrete.STRICT Note.content_width Sample.long_text = None)
    as Hrefuse by (vm_compute; reflexivity).
  destruct (overlong_text_reaches_store Concrete.STRICT Concrete.collate_eq
              "t" Sample.long_text (or_intror Hlong))
    as (Hvalid & _ & _ & Hrefused).
  destruct (Hrefused (or_intror (conj Hlong Hrefuse)))
    as (Hcreate & Hupdate & _).
  split_and!.
  - exact Hvalid.
  - apply Hcreate.
  - apply Hupdate. vm_compute. eexists. reflexivity.
Defined.

(** ** The further properties on the sample data *)

Lemma concrete_collate_eq_sym a b :
  Concrete.collate_eq a b = true → Concrete.collate_eq b a = true.
Proof.
  unfold Concrete.collate_eq. intros ->%bool_decide_eq_true.
  by apply bool_decide_eq_true.
Qed.

Lemma concrete_collate_eq_trans a b c :
  Concrete.collate_eq a b = true → Concrete.collate_eq b c = true →
  Concrete.collate_eq a c = true.
Proof.
  unfold Concrete.collate_eq.
  intros ->%bool_decide_eq_true ->%bool_decide_eq_true.
  by apply bool_decide_eq_true.
Qed.

Lemma sample_primary_key : primary_key Sample.db.
Proof. split; apply (bool_decide_unpack _); vm_compute; exact I. Qed.


(** Alice's claims in a token whose header names the algorithm "none". *)
Lemma decode_token_other_algorithm_witness :
  decode_token Concrete.SECRET_KEY Concrete.json_loads
    Concrete.base64url_decode Concrete.sign
    (jwt_encode Concrete.json_dumps Concrete.base64url_encode Concrete.sign
       [("sub", JStr "alice@example.com")] Concrete.SECRET_KEY "none") 2000
  = Raise (HTTPException 401 "Invalid or expired token").
Proof.
  apply (decode_token_other_algorithm Concrete.SECRET_KEY Concrete.json_dumps
           Concrete.json_loads Concrete.base64url_encode
           Concrete.base64url_decode Concrete.sign
           concrete_json_loads_dumps concrete_base64url_decode_encode
           concrete_base64url_dotfree [("sub", JStr "alice@example.com")]
           Concrete.SECRET_KEY "none" 2000).
  vm_compute. discriminate.
Defined.



(** Alice logs in at second 50 and uses the token at second 2000. *)
Lemma login_token_authenticates_witness :
  let payload := LoginRequest.mk "alice@example.com" "secret1" in
  let tok :=
    TokenResponse.mk
      (create_access_token Concrete.SECRET_KEY Concrete.json_dumps
         Concrete.base64url_encode Concrete.sign
         "alice@example.com" ACCESS_TOKEN_EXPIRE_MINUTES 50)
      "bearer" in
  ∃ user,
    user_by_email Concrete.collate_eq (LoginRequest.email payload) Sample.db
    = Some user
    ∧ TokenResponse.token_type tok = "bearer"
    ∧ require_user Concrete.SECRET_KEY Concrete.collate_eq Concrete.json_loads
        Concrete.base64url_decode Concrete.sign
        (TokenResponse.access_token tok) 2000 Sample.db
      = Return user.
Proof.
  intros payload tok.
  apply (login_token_authenticates Concrete.SECRET_KEY Concrete.collate_eq
           Concrete.argon2 Concrete.phc_decode Concrete.json_dumps
           Concrete.json_loads Concrete.base64url_encode
           Concrete.base64url_decode Concrete.sign
           concrete_json_loads_dumps concrete_base64url_decode_encode
           concrete_base64url_dotfree payload tok 50 2000 Sample.db
           Sample.db concrete_collate_eq_sym concrete_collate_eq_trans).
  - intros u Hu. each_row Hu; discriminate.
  - unfold login.
    assert (user_by_email Concrete.collate_eq (LoginRequest.email payload)
              Sample.db = Some Sample.alice) as ->
      by (vm_compute; reflexivity).
    assert (verify_password Concrete.argon2 Concrete.phc_decode
              (LoginRequest.password payload)
              (User.password_hash Sample.alice) = Return true) as ->
      by (vm_compute; reflexivity).
    reflexivity.
  - reflexivity.
  - vm_compute. discriminate.
Defined.

(** Alice creates a fourth note on the sample session. *)
Lemma create_note_then_list_witness :
  let note := Note.mk 4 "alice@example.com" "new" "text" 2000 in
  let db' :=
    {| users := users Sample.db; notes := notes Sample.db ++ [note];
       users_seq := 3; notes_seq := 5 |} in
  list_notes Concrete.collate_eq Sample.alice db'
  = note :: list_notes Concrete.collate_eq Sample.alice Sample.db
  ∧ owned_note Concrete.collate_eq 4 Sample.alice db' = Some note.
Proof.
  intros note db'.
  assert (create_note Concrete.STRICT (NoteCreate.mk "new" "text")
            Sample.alice 2000 Sample.db = (Return note, db')) as Hcreate
    by (vm_compute; reflexivity).
  destruct (create_note_then_list Concrete.STRICT Concrete.collate_eq
              concrete_collate_eq_refl (NoteCreate.mk "new" "text")
              Sample.alice 2000 Sample.db db' note sample_primary_key
              Hcreate)
    as (Hlist & Hlookup & _).
  split; [exact Hlist|exact Hlookup].
Defined.

(** Alice rewrites her note 1 and sends the same request again. *)
Lemma update_note_then_read_witness :
  let payload := NoteCreate.mk "t2" "c2" in
  let note' := Note.mk 1 "alice@example.com" "t2" "c2" 10 in
  let db' := set_notes [note'; Sample.note2; Sample.note3] Sample.db in
  owned_note Concrete.collate_eq 1 Sample.alice db' = Some note'
  ∧ update_note Concrete.STRICT Concrete.collate_eq 1 payload Sample.alice db'
    = (Return note', db').
Proof.
  intros payload note' db'.
  assert (update_note Concrete.STRICT Concrete.collate_eq 1 payload
            Sample.alice Sample.db = (Return note', db')) as Hupdate
    by (vm_compute; reflexivity).
  destruct (update_note_then_read Concrete.STRICT Concrete.collate_eq 1
              payload Sample.alice Sample.db db' note' Hupdate)
    as (Hlookup & Hagain & _).
  split; [exact Hlookup|exact Hagain].
Defined.

(** Alice deletes her note 1 and asks for it again. *)
Lemma delete_note_removes_witness :
  let db' := set_notes [Sample.note2; Sample.note3] Sample.db in
  delete_note Concrete.collate_eq 1 Sample.alice Sample.db
  = (Return [("message", JStr "deleted")], db')
  ∧ delete_note Concrete.collate_eq 1 Sample.alice db'
    = (Raise (HTTPException 404 "Note not found"), db').
Proof.
  intros db'.
  assert (delete_note Concrete.collate_eq 1 Sample.alice Sample.db
          = (Return [("message", JStr "deleted")], db')) as Hdelete
    by (vm_compute; reflexivity).
  destruct (delete_note_removes Concrete.STRICT Concrete.collate_eq 1
              Sample.alice Sample.db db' [("message", JStr "deleted")]
              Hdelete)
    as (_ & _ & _ & _ & _ & _ & Hagain & _).
  split; [exact Hdelete|apply Hagain].
Defined.

(** Whatever Alice creates, Bob's listing is what it was. *)
Lemma other_users_notes_untouched_witness :
  list_notes Concrete.collate_eq Sample.bob
    (create_note Concrete.STRICT (NoteCreate.mk "new" "text") Sample.alice
       2000 Sample.db).2
  = list_notes Concrete.collate_eq Sample.bob Sample.db.
Proof.
  apply (other_users_notes_untouched Concrete.STRICT Concrete.collate_eq
           concrete_collate_eq_refl Sample.alice Sample.bob Sample.db).
  intros owner Ha%bool_decide_eq_true Hb%bool_decide_eq_true.
  rewrite Ha in Hb. discriminate.
Defined.

(** One registration on the empty tables. *)
Lemma run_consistent_witness :
  consistent Concrete.collate_eq Concrete.EmailStr
    (run Concrete.SECRET_KEY Concrete.STRICT Concrete.collate_eq
       Concrete.argon2 Concrete.phc_encode Concrete.json_loads
       Concrete.base64url_decode Concrete.sign Concrete.EmailStr
       [(POST_register "a@x.com" "secret1" "NaCl", 100)] empty_db).
Proof.
  apply (run_consistent Concrete.SECRET_KEY Concrete.STRICT
           Concrete.collate_eq Concrete.argon2 Concrete.phc_encode
           Concrete.json_loads Concrete.base64url_decode Concrete.sign
           Concrete.EmailStr
           [(POST_register "a@x.com" "secret1" "NaCl", 100)] empty_db).
  apply consistent_empty.
Defined.


(** A first user on the empty tables, from registration to listing. *)
Lemma register_login_create_list_witness :
  let user :=
    User.mk 1 "a@x.com"
      (hash_password Concrete.argon2 Concrete.phc_encode "NaCl" "secret1")
      100 in
  let note := Note.mk 1 "a@x.com" "t" "c" 120 in
  ∃ db1 tok db2,
    post_register Concrete.collate_eq Concrete.argon2 Concrete.phc_encode
      Concrete.EmailStr "a@x.com" "secret1" "NaCl" 100 empty_db
    = (Return [("message", JStr "registered")], db1)
    ∧ post_login Concrete.SECRET_KEY Concrete.collate_eq Concrete.argon2
        Concrete.phc_decode Concrete.json_dumps Concrete.base64url_encode
        Concrete.sign Concrete.EmailStr "a@x.com" "secret1" 110 db1
      = Return tok
    ∧ TokenResponse.token_type tok = "bearer"
    ∧ post_notes Concrete.SECRET_KEY Concrete.STRICT Concrete.collate_eq
        Concrete.json_loads Concrete.base64url_decode Concrete.sign
        (TokenResponse.access_token tok) "t" "c" 120 db1
      = (Return note, db2)
    ∧ get_notes Concrete.SECRET_KEY Concrete.collate_eq Concrete.json_loads
        Concrete.base64url_decode Concrete.sign
        (TokenResponse.access_token tok) 130 db2
      = Return (note_out <$>
                  note :: list_notes Concrete.collate_eq user empty_db).
Proof.
  apply (register_login_create_list Concrete.SECRET_KEY Concrete.STRICT
           Concrete.collate_eq Concrete.argon2 Concrete.phc_encode
           Concrete.phc_decode Concrete.json_dumps Concrete.json_loads
           Concrete.base64url_encode Concrete.base64url_decode Concrete.sign
           Concrete.EmailStr concrete_json_loads_dumps
           concrete_base64url_decode_encode concrete_base64url_dotfree
           concrete_phc_decode_encode concrete_collate_eq_refl
           "a@x.com" "secret1" "NaCl" "t" "c" "a@x.com" 100 110 120 130
           empty_db).
  - reflexivity.
  - discriminate.
  - simpl. lia.
  - reflexivity.
  - apply primary_key_empty.
  - vm_compute. lia.
  - vm_compute. lia.
  - vm_compute. discriminate.
  - vm_compute. discriminate.
Defined.

(** ** Examples *)

(** Alice's notes, newest first; Bob's note is not among them. *)
Example list_notes_alice :
  list_notes Concrete.collate_eq Sample.alice Sample.db
  = [Sample.note3; Sample.note1].
Proof. vm_compute. reflexivity. Qed.

(** A subject that decodes but names no stored user. *)
Example require_user_unknown :
  require_user Concrete.SECRET_KEY Concrete.collate_eq Concrete.json_loads
    Concrete.base64url_decode Concrete.sign
    (create_access_token Concrete.SECRET_KEY Concrete.json_dumps Concrete.base64url_encode Concrete.sign
       "carol@example.com" ACCESS_TOKEN_EXPIRE_MINUTES 1000) 2000 Sample.db
  = Raise (HTTPException 401 "User not found").
Proof. vm_compute. reflexivity. Qed.

(** Alice's listing on the sample session is strictly descending. *)
Lemma list_notes_owner_desc_witness :
  StronglySorted id_desc_strict
    (list_notes Concrete.collate_eq Sample.alice
       (creations Concrete.STRICT
          [((NoteCreate.mk "n" "x"), Sample.bob, 40);
           ((NoteCreate.mk "m" "y"), Sample.alice, 50)]
          Sample.db)).
Proof.
  apply (list_notes_owner_desc Concrete.STRICT Concrete.collate_eq).
  split.
  - apply (bool_decide_unpack _). vm_compute. exact I.
  - apply (bool_decide_unpack _). vm_compute. exact I.
Defined.

(** The end-to-end run of the specification: register, log in, create a
    note, list, update, delete, list. *)
Example end_to_end :
  let register := register Concrete.collate_eq Concrete.argon2
                    Concrete.phc_encode in
  let login := login Concrete.SECRET_KEY Concrete.collate_eq Concrete.argon2
                 Concrete.phc_decode Concrete.json_dumps Concrete.base64url_encode Concrete.sign in
  let get_notes := get_notes Concrete.SECRET_KEY Concrete.collate_eq
                     Concrete.json_loads Concrete.base64url_decode Concrete.sign in
  let post_notes := post_notes Concrete.SECRET_KEY Concrete.STRICT
                      Concrete.collate_eq Concrete.json_loads Concrete.base64url_decode Concrete.sign in
  let put_notes := put_notes Concrete.SECRET_KEY Concrete.STRICT
                     Concrete.collate_eq Concrete.json_loads Concrete.base64url_decode Concrete.sign in
  let delete_notes := delete_notes Concrete.SECRET_KEY Concrete.collate_eq
                        Concrete.json_loads Concrete.base64url_decode Concrete.sign in
  let s1 := register (RegisterRequest.mk "a@x.com" "secret1")
              "NaCl" 100 empty_db in
  match login (LoginRequest.mk "a@x.com" "secret1")
          110 s1.2 with
  | Raise _ => False
  | Return tok =>
      let creds := TokenResponse.access_token tok in
      let s3 := post_notes creds "t" "c" 120 s1.2 in
      let r4 := get_notes creds 130 s3.2 in
      let s5 := put_notes creds 1 "t2" "c2" 140 s3.2 in
      let s6 := delete_notes creds 1 150 s5.2 in
      let r7 := get_notes creds 160 s6.2 in
      status_of 201 s1.1 = 201
      ∧ TokenResponse.token_type tok = "bearer"
      ∧ s3.1 = Return (Note.mk 1 "a@x.com" "t" "c" 120)
      ∧ r4 = Return [NoteOut.mk 1 "t" "c" 120]
      ∧ s5.1 = Return (Note.mk 1 "a@x.com" "t2" "c2" 120)
      ∧ s6.1 = Return [("message", JStr "deleted")]
      ∧ r7 = Return []
  end.
Proof. vm_compute. by split_and!. Qed.

(** A token signed under another key is refused. *)
Example foreign_key_refused :
  decode_token Concrete.SECRET_KEY Concrete.json_loads
    Concrete.base64url_decode Concrete.sign
    (create_access_token "not the key" Concrete.json_dumps
       Concrete.base64url_encode Concrete.sign
       "alice@example.com" ACCESS_TOKEN_EXPIRE_MINUTES 1000) 2000
  = Raise (HTTPException 401 "Invalid or expired token").
Proof. vm_compute. reflexivity. Qed.
